(** * The mining dashboard controller ([src/app/mining/page.tsx])

    A shallow embedding of the [MiningDashboard] component: its state cells,
    the wallet-address regular expression, the three action handlers
    ([startMining], [stopMining], [deposit]), the polling effect, and a small
    model of the runtime the component runs on (React state cells and effects,
    interval timers, [fetch]).

    How the program is read:
    - strings are sequences of UTF-16 code units, which is what a regular
      expression without flags consumes;
    - the numeric cells are declared [number] and are only stored, shown and
      compared with [0]; they are rationals here;
    - a response is its [ok] flag together with what [res.json()] yields,
      typed as the endpoint answers ([progress], [hashRate], [totalMined],
      [message?]); reading the body may fail, which throws into the
      enclosing [catch];
    - an [async] handler is a tree of setter calls that suspends at
      [await fetch(...)]; the code after the [await] runs as one step when
      the reply arrives, its setter calls are committed together, and the
      polling effect (dependency list [[isMining]]) runs its cleanup and body
      within that commit;
    - the component reacts to events: clicks on the three buttons, typing in
      the address field, ticks of a live interval, replies to requests in
      flight, and unmounting.  A disabled control delivers no event. *)

From Stdlib Require Import List String Ascii Bool Arith NArith PArith QArith Lia.
Import ListNotations.

Local Open Scope nat_scope.

(** ** JavaScript strings

    A JavaScript string is a sequence of UTF-16 code units; a regular
    expression without the [u] flag consumes one code unit at a time. *)

Module Js.

Definition codeUnit : Type := N.
Definition jsString : Type := list codeUnit.

(** The code unit of an ASCII character, and an ASCII literal as a string. *)
Definition unit_of (c : ascii) : codeUnit := N_of_ascii c.
Definition lit (s : string) : jsString := map unit_of (list_ascii_of_string s).

Definition eqb (a b : jsString) : bool :=
  if list_eq_dec N.eq_dec a b then true else false.

(** [x || d] on strings that may be absent: [undefined] and the empty string
    are falsy. *)
Definition orElse (x : option jsString) (d : jsString) : jsString :=
  match x with
  | Some (c :: s) => c :: s
  | Some [] | None => d
  end.

End Js.

Definition jsString : Type := Js.jsString.

(** ** Regular expressions

    The fragment of the RegExp language that [walletAddressRegex] uses:
    character classes made of ranges, concatenation and bounded repetition.
    Matching is by derivatives; [Fail] and [Alt] only arise as derivatives. *)

Module RegExp.

(** A character class is a list of inclusive ranges [lo-hi]; a single
    character [c] is the range [c-c]. *)
Definition charClass : Type := list (ascii * ascii).

Definition inRange (c : N) (r : ascii * ascii) : bool :=
  (Js.unit_of (fst r) <=? c)%N && (c <=? Js.unit_of (snd r))%N.

Definition inClass (cs : charClass) (c : N) : bool := existsb (inRange c) cs.

Inductive regex : Type :=
| Fail
| Empty
| Class (cs : charClass)
| Seq (r s : regex)
| Alt (r s : regex)
| Repeat (r : regex) (lo hi : nat).     (* r{lo,hi} *)

Fixpoint nullable (r : regex) : bool :=
  match r with
  | Fail => false
  | Empty => true
  | Class _ => false
  | Seq r s => nullable r && nullable s
  | Alt r s => nullable r || nullable s
  | Repeat r lo _ => (lo =? 0) || nullable r
  end.

Fixpoint deriv (r : regex) (c : N) : regex :=
  match r with
  | Fail | Empty => Fail
  | Class cs => if inClass cs c then Empty else Fail
  | Seq r s =>
      if nullable r then Alt (Seq (deriv r c) s) (deriv s c)
      else Seq (deriv r c) s
  | Alt r s => Alt (deriv r c) (deriv s c)
  | Repeat r lo hi =>
      match hi with
      | 0 => Fail
      | S hi' => Seq (deriv r c) (Repeat r (pred lo) hi')
      end
  end.

(** [matches r s]: the whole of [s] is in the language of [r]. *)
Fixpoint matches (r : regex) (s : jsString) : bool :=
  match s with
  | [] => nullable r
  | c :: s' => matches (deriv r c) s'
  end.

(** [/^r$/.test(s)] for a pattern without flags: [^] and [$] anchor the match
    to the two ends of the input. *)
Definition test_anchored (r : regex) (s : jsString) : bool := matches r s.

End RegExp.

Import RegExp.

(** [const walletAddressRegex = /^[13][a-km-zA-HJ-NP-Z1-9]{25,34}$/;] *)
Definition walletAddressRegex : regex :=
  Seq (Class [("1", "1"); ("3", "3")]%char)
      (Repeat (Class [("a", "k"); ("m", "z"); ("A", "H"); ("J", "N");
                      ("P", "Z"); ("1", "9")]%char) 25 34).

Definition walletAddressRegex_test (s : jsString) : bool :=
  test_anchored walletAddressRegex s.


(** ** Component state

    One field per [React.useState] cell of [MiningDashboard].  The numeric
    cells hold numbers that are either the initial [0] or came out of a JSON
    body; the component only stores them and compares [totalMined] with [0],
    so they are modelled as rationals. *)

Inductive messageType : Type := error | success.

Record Message : Type := mkMessage { type : messageType; text : jsString }.

Record State : Type := mkState {
  isMining : bool;
  progress : Q;
  hashRate : Q;
  totalMined : Q;
  customWallet : jsString;
  message : option Message;
  isLoading : bool
}.

Definition initialState : State :=
  {| isMining := false; progress := 0; hashRate := 0; totalMined := 0;
     customWallet := []; message := None; isLoading := false |}.

(** A call of one of the state setters. *)
Inductive Setter : Type :=
| setIsMining (b : bool)
| setProgress (x : Q)
| setHashRate (x : Q)
| setTotalMined (x : Q)
| setCustomWallet (v : jsString)
| setMessage (m : option Message)
| setIsLoading (b : bool).

Definition assign (u : Setter) (s : State) : State :=
  match u with
  | setIsMining b =>
      mkState b (progress s) (hashRate s) (totalMined s) (customWallet s)
              (message s) (isLoading s)
  | setProgress x =>
      mkState (isMining s) x (hashRate s) (totalMined s) (customWallet s)
              (message s) (isLoading s)
  | setHashRate x =>
      mkState (isMining s) (progress s) x (totalMined s) (customWallet s)
              (message s) (isLoading s)
  | setTotalMined x =>
      mkState (isMining s) (progress s) (hashRate s) x (customWallet s)
              (message s) (isLoading s)
  | setCustomWallet v =>
      mkState (isMining s) (progress s) (hashRate s) (totalMined s) v
              (message s) (isLoading s)
  | setMessage m =>
      mkState (isMining s) (progress s) (hashRate s) (totalMined s)
              (customWallet s) m (isLoading s)
  | setIsLoading b =>
      mkState (isMining s) (progress s) (hashRate s) (totalMined s)
              (customWallet s) (message s) b
  end.

(** ** The remote endpoint

    Every request is a [POST] to ['/api/mining'] whose JSON body carries an
    [action] and, for a deposit, the [wallet]. *)

Inductive Action : Type := start | stop | status | deposit_.

Record Body : Type := mkBody { action : Action; wallet : option jsString }.

Record Request : Type := mkRequest { url : string; method : string; body : Body }.

Definition post (b : Body) : Request :=
  {| url := "/api/mining"; method := "POST"; body := b |}.

(** The value [res.json()] yields, with the properties the component reads:
    [progress], [hashRate] and [totalMined] after a status query and the
    optional [message] after a deposit. *)
Module Data.
Record t : Type := make {
  progress : Q;
  hashRate : Q;
  totalMined : Q;
  message : option jsString
}.
End Data.

(** A response: its [ok] flag, and what [await res.json()] gives.  [None]
    stands for a body that cannot be read as a JSON object: the promise
    rejects (or yields [null], on which the property access throws), and
    control passes to the enclosing [catch]. *)
Record Response : Type := mkResponse { ok : bool; json_body : option Data.t }.

(** What [await fetch(...)] does: it throws on a transport error and
    otherwise yields the response, whatever its status. *)
Inductive FetchResult : Type :=
| Rejected
| Resolved (res : Response).

(** ** Asynchronous code

    An [async] function body: setter calls, [await fetch(...)] as the only
    suspension point, exceptions and [try]/[catch]. *)

Inductive Async (A : Type) : Type :=
| Ret (a : A)
| Throw
| Do (u : Setter) (k : Async A)
| Await (req : Request) (k : FetchResult -> Async A).

Arguments Ret {A} a.
Arguments Throw {A}.
Arguments Do {A} u k.
Arguments Await {A} req k.

Fixpoint bind {A B : Type} (p : Async A) (f : A -> Async B) : Async B :=
  match p with
  | Ret a => f a
  | Throw => Throw
  | Do u k => Do u (bind k f)
  | Await req k => Await req (fun r => bind (k r) f)
  end.

Fixpoint tryCatch {A : Type} (p h : Async A) : Async A :=
  match p with
  | Ret a => Ret a
  | Throw => h
  | Do u k => Do u (tryCatch k h)
  | Await req k => Await req (fun r => tryCatch (k r) h)
  end.

Declare Scope async_scope.
Delimit Scope async_scope with async.
Bind Scope async_scope with Async.
Notation "x <- c ;; k" := (bind c (fun x => k))
  (at level 61, c at next level, right associativity) : async_scope.
Notation "c ;; k" := (bind c (fun _ => k))
  (at level 61, right associativity) : async_scope.
Local Open Scope async_scope.

Definition call (u : Setter) : Async unit := Do u (Ret tt).

Definition fetch (req : Request) : Async Response :=
  Await req (fun r => match r with
                      | Rejected => Throw
                      | Resolved res => Ret res
                      end).

Definition json (res : Response) : Async Data.t :=
  match json_body res with
  | Some data => Ret data
  | None => Throw
  end.

Definition say (ty : messageType) (s : string) : Setter :=
  setMessage (Some {| type := ty; text := Js.lit s |}).

(** ** The handlers of [MiningDashboard] *)

(** The callback of the polling interval (lines 30-48). *)
Definition pollTick : Async unit :=
  tryCatch
    (res <- fetch (post {| action := status; wallet := None |}) ;;
     if ok res then
       data <- json res ;;
       call (setProgress (Data.progress data)) ;;
       call (setHashRate (Data.hashRate data)) ;;
       call (setTotalMined (Data.totalMined data))
     else
       call (say error "Failed to fetch mining status."))
    (call (say error "Error fetching mining status.")).

Definition startMining : Async unit :=
  call (setIsLoading true) ;;
  call (setMessage None) ;;
  tryCatch
    (res <- fetch (post {| action := start; wallet := None |}) ;;
     if ok res then
       call (setIsMining true) ;;
       call (say success "Mining started.")
     else
       call (say error "Failed to start mining."))
    (call (say error "Error starting mining.")) ;;
  call (setIsLoading false).

Definition stopMining : Async unit :=
  call (setIsLoading true) ;;
  call (setMessage None) ;;
  tryCatch
    (res <- fetch (post {| action := stop; wallet := None |}) ;;
     if ok res then
       call (setIsMining false) ;;
       call (say success "Mining stopped.")
     else
       call (say error "Failed to stop mining."))
    (call (say error "Error stopping mining.")) ;;
  call (setIsLoading false).

(** [deposit] reads [customWallet] from the render it was created in. *)
Definition deposit (customWallet : jsString) : Async unit :=
  call (setMessage None) ;;
  if negb (walletAddressRegex_test customWallet) then
    call (say error "Invalid Bitcoin wallet address.")
  else
    call (setIsLoading true) ;;
    tryCatch
      (res <- fetch (post {| action := deposit_; wallet := Some customWallet |}) ;;
       if ok res then
         data <- json res ;;
         call (setMessage (Some {| type := success;
                 text := Js.orElse (Data.message data) (Js.lit "Deposit successful.") |})) ;;
         call (setTotalMined 0)
       else
         errData <- json res ;;
         call (setMessage (Some {| type := error;
                 text := Js.orElse (Data.message errData) (Js.lit "Deposit failed.") |})))
      (call (say error "Error during deposit.")) ;;
    call (setIsLoading false).

(** ** Running asynchronous code

    [runSync p s] runs [p] on the state [s] up to its first suspension point:
    the setter calls made so far are applied, and the code either finished,
    died on an uncaught exception, or waits for the reply to a request. *)

Inductive Paused : Type :=
| Finished
| Uncaught
| Suspended (req : Request) (k : FetchResult -> Async unit).

Fixpoint runSync (p : Async unit) (s : State) : State * Paused :=
  match p with
  | Ret _ => (s, Finished)
  | Throw => (s, Uncaught)
  | Do u k => runSync k (assign u s)
  | Await req k => (s, Suspended req k)
  end.

(** The code that runs when the reply to the first request of [p] arrives. *)
Fixpoint kont (p : Async unit) : FetchResult -> Async unit :=
  match p with
  | Ret _ | Throw => fun _ => Ret tt
  | Do _ k => kont k
  | Await _ k => k
  end.

(** Every request that one call of [p] issues, from its start to its end,
    when the endpoint answers the request [req] with [answer req]. *)
Fixpoint requests (p : Async unit) (answer : Request -> FetchResult) : list Request :=
  match p with
  | Ret _ | Throw => []
  | Do _ k => requests k answer
  | Await req k => req :: requests (k (answer req)) answer
  end.

(** ** The runtime: React, interval timers and requests in flight

    The world of one mounted instance of the component.  [timers] are the
    live [setInterval] timers; [cleanupFn] is the cleanup function React holds
    for the last run of the polling effect, given by the value of the
    [interval] variable it closes over ([None] inside: the variable was never
    assigned); [pending] are the requests whose reply has not arrived, each
    with the code waiting for it; [sent] logs every request issued. *)

Record Timer : Type := mkTimer {
  handle : positive;        (* what [setInterval] returned: an integer > 0 *)
  delay : nat;              (* milliseconds *)
  callback : Async unit
}.

Record InFlight : Type := mkInFlight {
  rid : positive;
  request : Request;
  resume : FetchResult -> Async unit
}.

Record World : Type := mkWorld {
  mounted : bool;
  ui : State;
  timers : list Timer;
  nextTimer : positive;
  cleanupFn : option (option positive);
  pending : list InFlight;
  nextRequest : positive;
  sent : list Request
}.

Definition setInterval (cb : Async unit) (ms : nat) (w : World) : positive * World :=
  (nextTimer w,
   mkWorld (mounted w) (ui w)
           (timers w ++ [{| handle := nextTimer w; delay := ms; callback := cb |}])
           (Pos.succ (nextTimer w)) (cleanupFn w) (pending w) (nextRequest w) (sent w)).

Definition clearInterval (h : positive) (w : World) : World :=
  mkWorld (mounted w) (ui w)
          (filter (fun t => negb (Pos.eqb (handle t) h)) (timers w))
          (nextTimer w) (cleanupFn w) (pending w) (nextRequest w) (sent w).

Definition withCleanup (c : option (option positive)) (w : World) : World :=
  mkWorld (mounted w) (ui w) (timers w) (nextTimer w) c (pending w)
          (nextRequest w) (sent w).

Definition withUi (s : State) (w : World) : World :=
  mkWorld (mounted w) s (timers w) (nextTimer w) (cleanupFn w) (pending w)
          (nextRequest w) (sent w).

(** The body of the polling effect (lines 28-52), run with the [isMining] of
    the render it belongs to: it may start the interval, and it returns the
    cleanup function. *)
Definition pollingEffect (isMining : bool) (w : World) : World :=
  if isMining then
    let (interval, w') := setInterval pollTick 2000 w in
    withCleanup (Some (Some interval)) w'
  else
    withCleanup (Some None) w.

(** The cleanup function: [if (interval) clearInterval(interval)].  A handle
    is a positive integer, hence truthy; an unassigned [interval] is not. *)
Definition runCleanup (w : World) : World :=
  match cleanupFn w with
  | Some (Some interval) => clearInterval interval w
  | Some None | None => w
  end.

(** React commits a new state: the effect has the dependency list
    [[isMining]], so its cleanup and then its body run exactly when
    [isMining] differs from the previous render. *)
Definition commit (s' : State) (w : World) : World :=
  if Bool.eqb (isMining (ui w)) (isMining s') then withUi s' w
  else pollingEffect (isMining s') (runCleanup (withUi s' w)).

(** Issue a request: it is logged and its continuation waits for the reply. *)
Definition register (req : Request) (k : FetchResult -> Async unit) (w : World) : World :=
  mkWorld (mounted w) (ui w) (timers w) (nextTimer w) (cleanupFn w)
          (pending w ++ [{| rid := nextRequest w; request := req; resume := k |}])
          (Pos.succ (nextRequest w)) (sent w ++ [req]).

(** Run a piece of asynchronous code to its next suspension point.  The
    setters of an instance that is no longer mounted do nothing. *)
Definition launch (p : Async unit) (w : World) : World :=
  let (s', paused) := runSync p (ui w) in
  let w' := if mounted w then commit s' w else w in
  match paused with
  | Suspended req k => register req k w'
  | Finished | Uncaught => w'
  end.

Fixpoint take (id : positive) (l : list InFlight) : option (InFlight * list InFlight) :=
  match l with
  | [] => None
  | x :: l' =>
      if Pos.eqb (rid x) id then Some (x, l')
      else match take id l' with
           | Some (y, rest) => Some (y, x :: rest)
           | None => None
           end
  end.

Definition withPending (l : list InFlight) (w : World) : World :=
  mkWorld (mounted w) (ui w) (timers w) (nextTimer w) (cleanupFn w) l
          (nextRequest w) (sent w).

Definition unmount (w : World) : World :=
  let w' := runCleanup w in
  mkWorld false (ui w') (timers w') (nextTimer w') None (pending w')
          (nextRequest w') (sent w').

(** What can happen to the component. *)
Inductive Event : Type :=
| ClickStart
| ClickStop
| ClickDeposit
| ChangeWallet (v : jsString)
| Tick (h : positive)
| Reply (id : positive) (r : FetchResult)
| Unmount.

(** The [disabled] attributes of the three buttons and of the input (lines
    134, 137, 145, 147); a disabled control delivers no event. *)
Definition startDisabled (s : State) : bool := isMining s || isLoading s.
Definition stopDisabled (s : State) : bool := negb (isMining s) || isLoading s.
Definition inputDisabled (s : State) : bool := isLoading s.
Definition depositDisabled (s : State) : bool :=
  isLoading s || Qle_bool (totalMined s) 0.

Definition step (w : World) (e : Event) : World :=
  match e with
  | ClickStart =>
      if mounted w && negb (startDisabled (ui w)) then launch startMining w else w
  | ClickStop =>
      if mounted w && negb (stopDisabled (ui w)) then launch stopMining w else w
  | ClickDeposit =>
      if mounted w && negb (depositDisabled (ui w))
      then launch (deposit (customWallet (ui w))) w else w
  | ChangeWallet v =>
      if mounted w && negb (inputDisabled (ui w))
      then launch (call (setCustomWallet v)) w else w
  | Tick h =>
      match find (fun t => Pos.eqb (handle t) h) (timers w) with
      | Some t => launch (callback t) w
      | None => w
      end
  | Reply id r =>
      match take id (pending w) with
      | Some (x, rest) => launch (resume x r) (withPending rest w)
      | None => w
      end
  | Unmount => if mounted w then unmount w else w
  end.

(** The component right after it is mounted: the initial state is rendered
    and the effect has run once, with [isMining = false]. *)
Definition mount : World :=
  pollingEffect (isMining initialState)
    {| mounted := true; ui := initialState; timers := []; nextTimer := 1%positive;
       cleanupFn := None; pending := []; nextRequest := 1%positive; sent := [] |}.

Definition run (es : list Event) : World := fold_left step es mount.

Inductive reachable : World -> Prop :=
| reach_mount : reachable mount
| reach_step w e : reachable w -> reachable (step w e).

(** A request of one of the three user actions (not a status query) awaits
    its reply. *)
Definition isUserAction (a : Action) : bool :=
  match a with
  | status => false
  | start | stop | deposit_ => true
  end.

Definition actionInFlight (w : World) : Prop :=
  exists x, In x (pending w) /\ isUserAction (action (body (request x))) = true.

(** The request with identifier [id] is in flight and [p]'s continuation
    waits for its reply. *)
Definition awaiting (w : World) (id : positive) (p : Async unit) : Prop :=
  exists x rest, take id (pending w) = Some (x, rest) /\ resume x = kont p.

(** ** The address rule in the words of the specification

    An address is well formed when it is 26 to 35 characters long, starts
    with [1] or [3], and contains only base58-safe characters: letters and
    digits other than [0], [O], [I] and [l]. *)

Definition alphanumeric (c : N) : bool :=
  inClass [("0", "9"); ("A", "Z"); ("a", "z")]%char c.

Definition excluded (c : N) : bool :=
  existsb (N.eqb c) (Js.lit "0OIl").

Definition base58Safe (c : N) : bool := alphanumeric c && negb (excluded c).

Definition startsWith1or3 (a : jsString) : Prop :=
  exists rest, a = Js.unit_of "1" :: rest \/ a = Js.unit_of "3" :: rest.

Definition wellFormedAddress (a : jsString) : Prop :=
  26 <= List.length a <= 35 /\
  startsWith1or3 a /\
  Forall (fun c => base58Safe c = true) a.

(** The 58 symbols of the base58 alphabet. *)
Definition base58Alphabet : jsString :=
  Js.lit "123456789ABCDEFGHJKLMNPQRSTUVWXYZabcdefghijkmnopqrstuvwxyz".

(** Outcomes of a request, as the specification classes them. *)
Definition okResponse (r : FetchResult) : Prop :=
  exists res, r = Resolved res /\ ok res = true.

Definition failedRequest (r : FetchResult) : Prop :=
  r = Rejected \/ exists res, r = Resolved res /\ ok res = false.

(** An ok response whose body [res.json()] can read. *)
Definition okWithBody (r : FetchResult) (data : Data.t) : Prop :=
  exists res, r = Resolved res /\ ok res = true /\ json_body res = Some data.

Definition isError (m : option Message) : Prop :=
  exists t, m = Some {| type := error; text := t |}.

(** The polling timer: the interval the effect starts. *)
Definition pollTimer (h : positive) : Timer :=
  {| handle := h; delay := 2000; callback := pollTick |}.

(** An ok response whose body cannot be read. *)
Definition okUnreadable (r : FetchResult) : Prop :=
  exists res, r = Resolved res /\ ok res = true /\ json_body res = None.

(** The handlers behind the three buttons; [deposit] gets past its
    validation when the address matches. *)
Definition userHandler (p : Async unit) : Prop :=
  p = startMining \/ p = stopMining \/
  exists a, walletAddressRegex_test a = true /\ p = deposit a.

(** The request that code stopping at [paused] has put in flight, if any,
    under the identifier [id]. *)
Definition issued (paused : Paused) (id : positive) : list InFlight :=
  match paused with
  | Suspended req k => [{| rid := id; request := req; resume := k |}]
  | Finished | Uncaught => []
  end.

(** ** Invariants of the runtime *)

(** The timer follows the session: a mounted, mining component holds exactly
    the polling timer, whose handle its cleanup function knows; otherwise no
    timer is live. *)
Definition TimerInv (w : World) : Prop :=
  match mounted w, isMining (ui w) with
  | true, true => exists h, cleanupFn w = Some (Some h) /\ timers w = [pollTimer h]
  | true, false => cleanupFn w = Some None /\ timers w = []
  | false, _ => cleanupFn w = None /\ timers w = []
  end.

(** Code waiting for a reply runs to its end without a further request; the
    code of a user action leaves [isLoading] false, that of a status query
    leaves it as it was. *)
Definition settles (userAction : bool) (k : FetchResult -> Async unit) : Prop :=
  forall r s, exists s',
    runSync (k r) s = (s', Finished) /\
    isLoading s' = (if userAction then false else isLoading s).

Definition userEntry (x : InFlight) : bool :=
  isUserAction (action (body (request x))).

Definition GateInv (w : World) : Prop :=
  Forall (fun x => settles (userEntry x) (resume x)) (pending w) /\
  (mounted w = true ->
   List.length (filter userEntry (pending w)) <= (if isLoading (ui w) then 1 else 0)).

(** Request identifiers are fresh: those in flight are below the next one. *)
Definition FreshInv (w : World) : Prop :=
  Forall (fun x => (rid x < nextRequest w)%positive) (pending w).

(** ** Sample data: the addresses and replies of the specification's
    scenarios. *)

Definition boatAddress : jsString := Js.lit "1BoatSLRHtKNngkdXEeobR76b53LETtpyT".
Definition payoutAddress : jsString := Js.lit "3J98t1WpEZ73CNmQviecrnyiWrnqRhWNLy".

Definition depositRequest (a : jsString) : Request :=
  post {| action := deposit_; wallet := Some a |}.

Definition statusRequest : Request := post {| action := status; wallet := None |}.

Definition emptyData : Data.t :=
  {| Data.progress := 0; Data.hashRate := 0; Data.totalMined := 0;
     Data.message := None |}.

Definition okReply (d : Data.t) : FetchResult :=
  Resolved {| ok := true; json_body := Some d |}.

Definition notOkReply (d : Data.t) : FetchResult :=
  Resolved {| ok := false; json_body := Some d |}.


(** A status reply reporting a total of 12.5. *)
Definition statusData : Data.t :=
  {| Data.progress := 40; Data.hashRate := 7; Data.totalMined := 25 # 2;
     Data.message := None |}.

(** A session that mined 12.5: start (request 1), one poll (request 2). *)
Definition minedSession : list Event :=
  [ClickStart; Reply 1 (okReply emptyData); Tick 1; Reply 2 (okReply statusData)].

(** [n] successive ticks of the timer [h]. *)
Fixpoint ticks (h : positive) (n : nat) (w : World) : World :=
  match n with
  | 0 => w
  | S n' => ticks h n' (step w (Tick h))
  end.

(** ** Requests in flight and the handlers that sent them *)

Definition startRequest : Request := post {| action := start; wallet := None |}.
Definition stopRequest : Request := post {| action := stop; wallet := None |}.

(** The request [req] is in flight under the identifier [id]. *)
Definition inFlight (w : World) (id : positive) (req : Request) : Prop :=
  exists x rest, take id (pending w) = Some (x, rest) /\ request x = req.

(** The request [req] is one a handler sends, and [k] is the rest of that
    handler. *)
Definition sentBy (req : Request) (k : FetchResult -> Async unit) : Prop :=
  match action (body req) with
  | start => req = startRequest /\ k = kont startMining
  | stop => req = stopRequest /\ k = kont stopMining
  | status => req = statusRequest /\ k = kont pollTick
  | deposit_ =>
      exists a, walletAddressRegex_test a = true /\
                req = depositRequest a /\ k = kont (deposit a)
  end.

Definition PendingInv (w : World) : Prop :=
  Forall (fun x => sentBy (request x) (resume x)) (pending w).

(** A reply seen as the handlers see it: did [res.ok] hold, and what did
    [res.json()] give on an ok response. *)
Definition replyOk (r : FetchResult) : bool :=
  match r with
  | Resolved res => ok res
  | Rejected => false
  end.

Definition replyData (r : FetchResult) : option Data.t :=
  match r with
  | Resolved res => if ok res then json_body res else None
  | Rejected => None
  end.

(** A request as the component builds them: a POST to the one endpoint,
    with a wallet exactly when it is a deposit. *)
Definition wellFormedRequest (req : Request) : Prop :=
  url req = "/api/mining"%string /\ method req = "POST"%string /\
  match action (body req) with
  | deposit_ => exists a, wallet (body req) = Some a /\ wellFormedAddress a
  | start | stop | status => wallet (body req) = None
  end.

(** What is in flight agrees with what is on screen: a start request only
    while not mining, a stop request only while mining, a deposit request
    only for the address in the field. *)
Definition FlightInv (w : World) : Prop :=
  mounted w = true ->
  forall x, In x (pending w) ->
    match action (body (request x)) with
    | start => isMining (ui w) = false
    | stop => isMining (ui w) = true
    | deposit_ => wallet (body (request x)) = Some (customWallet (ui w))
    | status => True
    end.

(** The loading flag counts the user actions in flight. *)
Definition LoadingInv (w : World) : Prop :=
  List.length (filter userEntry (pending w)) <= 1 /\
  (mounted w = true ->
   List.length (filter userEntry (pending w)) = (if isLoading (ui w) then 1 else 0)).

(** Two states that differ at most in [message] and [isLoading]. *)
Definition sameData (s s' : State) : Prop :=
  isMining s' = isMining s /\ progress s' = progress s /\
  hashRate s' = hashRate s /\ totalMined s' = totalMined s /\
  customWallet s' = customWallet s.

(** ** The alert

    [{message && (<Alert variant={message.type === 'error' ? 'destructive' :
    'default'}>{message.text}</Alert>)}] (lines 153-157): what is shown, if
    anything, as the variant and the text. *)
Definition alert (s : State) : option (string * jsString) :=
  match message s with
  | Some m =>
      Some (match type m with
            | error => "destructive"%string
            | success => "default"%string
            end, text m)
  | None => None
  end.

(* ------------------------------------------------------------------ *)
(** * Properties *)

(** ** The regular expression *)

Section Matching.

Lemma matches_Fail s : matches Fail s = false.
Proof. induction s; simpl; auto. Qed.

Lemma matches_Alt s : forall r1 r2,
  matches (Alt r1 r2) s = matches r1 s || matches r2 s.
Proof. induction s as [|c s IH]; intros; simpl; auto. Qed.

Lemma matches_Seq_Fail s : forall r, matches (Seq Fail r) s = false.
Proof. induction s as [|c s IH]; intros; simpl; auto. Qed.

Lemma matches_Seq_Empty s r : matches (Seq Empty r) s = matches r s.
Proof.
  destruct s as [|c s]; simpl; auto.
  now rewrite matches_Alt, matches_Seq_Fail.
Qed.

(** A bounded repetition of a character class matches the strings of a
    length within the bounds that are made of characters of the class. *)
Lemma matches_Repeat_Class cs s : forall lo hi,
  matches (Repeat (Class cs) lo hi) s =
  (lo <=? List.length s) && (List.length s <=? hi) && forallb (inClass cs) s.
Proof.
  induction s as [|c s IH]; intros lo hi; simpl.
  - rewrite orb_false_r. destruct lo; reflexivity.
  - destruct hi as [|hi]; simpl.
    + rewrite matches_Fail. now rewrite andb_false_r.
    + destruct (inClass cs c); simpl.
      * rewrite matches_Seq_Empty, IH.
        destruct lo as [|lo]; simpl; reflexivity.
      * rewrite matches_Seq_Fail. now rewrite !andb_false_r.
Qed.

Lemma matches_Class_then cs r c s :
  matches (Seq (Class cs) r) (c :: s) = inClass cs c && matches r s.
Proof.
  simpl. destruct (inClass cs c); simpl.
  - apply matches_Seq_Empty.
  - apply matches_Seq_Fail.
Qed.

End Matching.

(** What [walletAddressRegex.test] computes, spelled out. *)
Lemma walletAddressRegex_test_unfold (a : jsString) :
  walletAddressRegex_test a =
  match a with
  | [] => false
  | c :: s =>
      inClass [("1", "1"); ("3", "3")]%char c &&
      ((25 <=? List.length s) && (List.length s <=? 34) &&
       forallb (inClass [("a", "k"); ("m", "z"); ("A", "H"); ("J", "N");
                         ("P", "Z"); ("1", "9")]%char) s)
  end.
Proof.
  unfold walletAddressRegex_test, test_anchored, walletAddressRegex.
  destruct a as [|c s]; [reflexivity|].
  now rewrite matches_Class_then, matches_Repeat_Class.
Qed.

(** ** The character class is the base58 alphabet *)

Lemma inClass_bounded cs c : inClass cs c = true -> (c < 256)%N.
Proof.
  unfold inClass. rewrite existsb_exists. intros [[lo hi] [_ H]].
  unfold inRange in H. apply andb_prop in H as [_ H]. simpl in H.
  apply N.leb_le in H. unfold Js.unit_of in H.
  pose proof (N_ascii_bounded hi). lia.
Qed.

Lemma agree_below_256 (f g : N -> bool) :
  forallb (fun n => Bool.eqb (f (N.of_nat n)) (g (N.of_nat n))) (seq 0 256) = true ->
  forall c, (c < 256)%N -> f c = g c.
Proof.
  intros H c Hc. rewrite forallb_forall in H.
  specialize (H (N.to_nat c)). rewrite N2Nat.id in H.
  apply eqb_prop, H, in_seq. lia.
Qed.

Lemma class_is_base58Safe c :
  inClass [("a", "k"); ("m", "z"); ("A", "H"); ("J", "N"); ("P", "Z"); ("1", "9")]%char c
  = base58Safe c.
Proof.
  destruct (N.ltb c 256) eqn:Hc.
  - apply N.ltb_lt in Hc. revert c Hc. apply agree_below_256. vm_compute. reflexivity.
  - apply N.ltb_ge in Hc.
    transitivity false.
    + apply not_true_is_false. intros H. apply inClass_bounded in H. lia.
    + symmetry. apply not_true_is_false. intros H.
      unfold base58Safe in H. apply andb_prop in H as [H _].
      apply inClass_bounded in H. lia.
Qed.

(** The same alphabet, symbol by symbol. *)
Lemma base58Safe_alphabet c :
  base58Safe c = existsb (N.eqb c) base58Alphabet.
Proof.
  destruct (N.ltb c 256) eqn:Hc.
  - apply N.ltb_lt in Hc. revert c Hc. apply agree_below_256. vm_compute. reflexivity.
  - apply N.ltb_ge in Hc.
    transitivity false.
    + apply not_true_is_false. intros H.
      unfold base58Safe in H. apply andb_prop in H as [H _].
      apply inClass_bounded in H. lia.
    + symmetry. apply not_true_is_false. intros H.
      apply existsb_exists in H as [x [Hin Hx]]. apply N.eqb_eq in Hx. subst x.
      assert (Hb : forallb (fun x => N.ltb x 256) base58Alphabet = true)
        by (vm_compute; reflexivity).
      rewrite forallb_forall in Hb. apply Hb, N.ltb_lt in Hin. lia.
Qed.

Lemma first_class_1or3 c :
  inClass [("1", "1"); ("3", "3")]%char c = true <->
  c = Js.unit_of "1" \/ c = Js.unit_of "3".
Proof.
  unfold inClass, inRange, Js.unit_of. simpl.
  rewrite orb_false_r, orb_true_iff, !andb_true_iff, !N.leb_le. lia.
Qed.

Lemma walletAddressRegex_test_spec (a : jsString) :
  walletAddressRegex_test a = true <-> wellFormedAddress a.
Proof.
  rewrite walletAddressRegex_test_unfold. unfold wellFormedAddress, startsWith1or3.
  destruct a as [|c s].
  - split; [discriminate|]. simpl. intros [H _]. lia.
  - rewrite !andb_true_iff, first_class_1or3, Nat.leb_le, Nat.leb_le, forallb_forall.
    simpl List.length. split.
    + intros [Hc [[Hlo Hhi] Hall]]. repeat split; try lia.
      * exists s. destruct Hc; subst; auto.
      * constructor.
        -- destruct Hc; subst; reflexivity.
        -- apply Forall_forall. intros x Hx. rewrite <- class_is_base58Safe. auto.
    + intros [[Hlo Hhi] [[rest Hc] Hall]]. repeat split; try lia.
      * destruct Hc as [Hc|Hc]; inversion Hc; auto.
      * intros x Hx. rewrite class_is_base58Safe.
        inversion Hall as [|? ? _ Hs]; subst. rewrite Forall_forall in Hs. auto.
Qed.

(** ** The handlers, one suspension at a time *)

Lemma runSync_startMining s :
  runSync startMining s =
  (assign (setMessage None) (assign (setIsLoading true) s),
   Suspended (post {| action := start; wallet := None |}) (kont startMining)).
Proof. reflexivity. Qed.

Lemma runSync_stopMining s :
  runSync stopMining s =
  (assign (setMessage None) (assign (setIsLoading true) s),
   Suspended (post {| action := stop; wallet := None |}) (kont stopMining)).
Proof. reflexivity. Qed.

Lemma runSync_pollTick s :
  runSync pollTick s =
  (s, Suspended (post {| action := status; wallet := None |}) (kont pollTick)).
Proof. reflexivity. Qed.

Lemma runSync_deposit_valid a s :
  walletAddressRegex_test a = true ->
  runSync (deposit a) s =
  (assign (setIsLoading true) (assign (setMessage None) s),
   Suspended (post {| action := deposit_; wallet := Some a |}) (kont (deposit a))).
Proof. intros H. unfold deposit. simpl. rewrite H. reflexivity. Qed.

Lemma runSync_deposit_malformed a s :
  walletAddressRegex_test a = false ->
  runSync (deposit a) s =
  (assign (say error "Invalid Bitcoin wallet address.") (assign (setMessage None) s),
   Finished).
Proof. intros H. unfold deposit. simpl. rewrite H. reflexivity. Qed.

(** The continuation of [deposit] does not depend on the address. *)
Lemma kont_deposit a b :
  walletAddressRegex_test a = true -> walletAddressRegex_test b = true ->
  kont (deposit a) = kont (deposit b).
Proof. intros Ha Hb. unfold deposit. simpl. rewrite Ha, Hb. reflexivity. Qed.

Lemma requests_deposit_valid a answer :
  walletAddressRegex_test a = true ->
  requests (deposit a) answer = [post {| action := deposit_; wallet := Some a |}].
Proof.
  intros H. unfold deposit. simpl. rewrite H. simpl.
  destruct (answer _) as [|[[] [d|]]]; reflexivity.
Qed.

Lemma requests_deposit_malformed a answer :
  walletAddressRegex_test a = false -> requests (deposit a) answer = [].
Proof. intros H. unfold deposit. simpl. rewrite H. reflexivity. Qed.

Lemma settles_startMining : settles true (kont startMining).
Proof. intros [|[[] b]] s; eexists; split; reflexivity. Qed.

Lemma settles_stopMining : settles true (kont stopMining).
Proof. intros [|[[] b]] s; eexists; split; reflexivity. Qed.

Lemma settles_pollTick : settles false (kont pollTick).
Proof. intros [|[[] [d|]]] s; eexists; split; reflexivity. Qed.

Lemma settles_deposit a :
  walletAddressRegex_test a = true -> settles true (kont (deposit a)).
Proof.
  intros H. unfold deposit. simpl. rewrite H. simpl.
  intros [|[[] [d|]]] s; eexists; split; reflexivity.
Qed.

(** ** The runtime *)

Lemma commit_frame s' w :
  mounted (commit s' w) = mounted w /\ ui (commit s' w) = s' /\
  pending (commit s' w) = pending w /\ sent (commit s' w) = sent w /\
  nextRequest (commit s' w) = nextRequest w.
Proof.
  unfold commit, pollingEffect, runCleanup.
  destruct (Bool.eqb _ _); [simpl; auto|].
  destruct (isMining s'); simpl;
    destruct (cleanupFn w) as [[h|]|]; simpl; auto.
Qed.

Lemma commit_same_session s' w :
  isMining s' = isMining (ui w) -> commit s' w = withUi s' w.
Proof. intros H. unfold commit. rewrite H, eqb_reflx. reflexivity. Qed.

Lemma launch_frame p w :
  mounted (launch p w) = mounted w /\
  ui (launch p w) = (if mounted w then fst (runSync p (ui w)) else ui w) /\
  pending (launch p w) = pending w ++ issued (snd (runSync p (ui w))) (nextRequest w) /\
  sent (launch p w) = sent w ++ map request (issued (snd (runSync p (ui w))) (nextRequest w)).
Proof.
  unfold launch. destruct (runSync p (ui w)) as [s' paused]. simpl.
  destruct (mounted w) eqn:Hm.
  - destruct (commit_frame s' w) as (H1 & H2 & H3 & H4 & H5).
    destruct paused; simpl; rewrite ?H1, ?H2, ?H3, ?H4, ?H5, ?app_nil_r; auto.
  - destruct paused; simpl; rewrite ?Hm, ?app_nil_r; auto.
Qed.

Lemma launch_timers_same p w :
  isMining (fst (runSync p (ui w))) = isMining (ui w) ->
  timers (launch p w) = timers w.
Proof.
  unfold launch. destruct (runSync p (ui w)) as [s' paused]. simpl. intros H.
  destruct (mounted w); [rewrite (commit_same_session _ _ H)|];
    destruct paused; reflexivity.
Qed.

Lemma take_split id l x rest :
  take id l = Some (x, rest) ->
  exists l1 l2, l = l1 ++ x :: l2 /\ rest = l1 ++ l2 /\ rid x = id.
Proof.
  revert x rest. induction l as [|y l IH]; simpl; intros x rest H; [discriminate|].
  destruct (Pos.eqb (rid y) id) eqn:E.
  - inversion H; subst. exists [], rest. apply Pos.eqb_eq in E. auto.
  - destruct (take id l) as [[z r]|]; [|discriminate]. inversion H; subst.
    destruct (IH _ _ eq_refl) as (l1 & l2 & -> & -> & Hid).
    exists (y :: l1), l2. auto.
Qed.

Lemma TimerInv_register req k w : TimerInv w -> TimerInv (register req k w).
Proof. exact (fun H => H). Qed.

Lemma TimerInv_withPending l w : TimerInv w -> TimerInv (withPending l w).
Proof. exact (fun H => H). Qed.

Lemma TimerInv_commit s' w :
  mounted w = true -> TimerInv w -> TimerInv (commit s' w).
Proof.
  unfold TimerInv, commit. intros Hm. rewrite Hm.
  destruct (isMining (ui w)) eqn:Ho, (isMining s') eqn:Hn; simpl.
  - rewrite Hm, Hn. auto.
  - intros (h & Hc & Ht). unfold runCleanup. simpl. rewrite Hc.
    unfold pollingEffect. simpl. rewrite Hm, Hn, Ht. simpl.
    rewrite Pos.eqb_refl. auto.
  - intros (Hc & Ht). unfold runCleanup. simpl. rewrite Hc.
    unfold pollingEffect. simpl. rewrite Hm, Hn, Ht. simpl. eauto.
  - rewrite Hm, Hn. auto.
Qed.

Lemma TimerInv_launch p w : TimerInv w -> TimerInv (launch p w).
Proof.
  intros H. unfold launch. destruct (runSync p (ui w)) as [s' paused].
  assert (H' : TimerInv (if mounted w then commit s' w else w)).
  { destruct (mounted w) eqn:Hm; auto using TimerInv_commit. }
  destruct paused; auto using TimerInv_register.
Qed.

Lemma TimerInv_unmount_clears w : TimerInv w -> timers (unmount w) = [].
Proof.
  unfold TimerInv, unmount, runCleanup.
  destruct (mounted w), (isMining (ui w)); simpl.
  - intros (h & -> & Ht). simpl. rewrite Ht. simpl. now rewrite Pos.eqb_refl.
  - intros (-> & Ht). auto.
  - intros (-> & Ht). auto.
  - intros (-> & Ht). auto.
Qed.

Lemma TimerInv_step w e : TimerInv w -> TimerInv (step w e).
Proof.
  intros H. destruct e; simpl.
  - destruct (_ && _); auto using TimerInv_launch.
  - destruct (_ && _); auto using TimerInv_launch.
  - destruct (_ && _); auto using TimerInv_launch.
  - destruct (_ && _); auto using TimerInv_launch.
  - destruct (find _ _); auto using TimerInv_launch.
  - destruct (take _ _) as [[x rest]|]; auto using TimerInv_launch, TimerInv_withPending.
  - destruct (mounted w) eqn:Hm; auto.
    assert (Hu := TimerInv_unmount_clears w H).
    unfold TimerInv. split; [reflexivity | exact Hu].
Qed.

Lemma TimerInv_mount : TimerInv mount.
Proof. unfold TimerInv. simpl. auto. Qed.

Lemma reachable_TimerInv w : reachable w -> TimerInv w.
Proof. induction 1; auto using TimerInv_mount, TimerInv_step. Qed.

(** ** The in-flight gate *)

Lemma GateInv_launch p w :
  Forall (fun x => settles (userEntry x) (resume x))
         (pending w ++ issued (snd (runSync p (ui w))) (nextRequest w)) ->
  (mounted w = true ->
   List.length (filter userEntry
                  (pending w ++ issued (snd (runSync p (ui w))) (nextRequest w)))
   <= (if isLoading (fst (runSync p (ui w))) then 1 else 0)) ->
  GateInv (launch p w).
Proof.
  intros HF HL. destruct (launch_frame p w) as (Hm & Hu & Hp & _).
  unfold GateInv. rewrite Hp, Hm. split; [exact HF|].
  intros M. rewrite Hu, M. auto.
Qed.

Lemma GateInv_idle w :
  GateInv w -> mounted w = true -> isLoading (ui w) = false ->
  filter userEntry (pending w) = [].
Proof.
  intros [_ H] M L. specialize (H M). rewrite L in H.
  destruct (filter userEntry (pending w)); [reflexivity | simpl in H; lia].
Qed.

Lemma GateInv_launch_action p req w :
  GateInv w -> mounted w = true -> isLoading (ui w) = false ->
  (forall s, snd (runSync p s) = Suspended req (kont p)) ->
  (forall s, isLoading (fst (runSync p s)) = true) ->
  settles (isUserAction (action (body req))) (kont p) ->
  GateInv (launch p w).
Proof.
  intros G M L Hp Hl Hs. apply GateInv_launch; rewrite Hp; simpl.
  - apply Forall_app. split; [apply G|]. constructor; [exact Hs | constructor].
  - intros _. rewrite filter_app, (GateInv_idle w G M L), Hl. simpl.
    destruct (userEntry _); simpl; lia.
Qed.

Lemma GateInv_launch_local p w :
  GateInv w ->
  (forall s, snd (runSync p s) = Finished) ->
  (forall s, isLoading (fst (runSync p s)) = isLoading s) ->
  GateInv (launch p w).
Proof.
  intros G Hp Hl. apply GateInv_launch; rewrite Hp; simpl; rewrite app_nil_r.
  - apply G.
  - rewrite Hl. apply G.
Qed.

Lemma TimerInv_find w f t :
  TimerInv w -> find f (timers w) = Some t ->
  mounted w = true /\ isMining (ui w) = true /\ exists h, t = pollTimer h.
Proof.
  unfold TimerInv. destruct (mounted w), (isMining (ui w)).
  - intros (h & _ & ->). simpl. destruct (f _); [|discriminate].
    intros [= <-]. eauto.
  - intros (_ & ->). discriminate.
  - intros (_ & ->). discriminate.
  - intros (_ & ->). discriminate.
Qed.

Lemma GateInv_step w e : TimerInv w -> GateInv w -> GateInv (step w e).
Proof.
  intros T G. destruct e; simpl.
  - destruct (mounted w) eqn:M; simpl; auto.
    unfold startDisabled. destruct (isMining (ui w)); simpl; auto.
    destruct (isLoading (ui w)) eqn:L; simpl; auto.
    apply GateInv_launch_action with (req := post {| action := start; wallet := None |});
      auto; exact settles_startMining.
  - destruct (mounted w) eqn:M; simpl; auto.
    unfold stopDisabled. destruct (isMining (ui w)); simpl; auto.
    destruct (isLoading (ui w)) eqn:L; simpl; auto.
    apply GateInv_launch_action with (req := post {| action := stop; wallet := None |});
      auto; exact settles_stopMining.
  - destruct (mounted w) eqn:M; simpl; auto.
    unfold depositDisabled. destruct (isLoading (ui w)) eqn:L; simpl; auto.
    destruct (Qle_bool _ _); simpl; auto.
    destruct (walletAddressRegex_test (customWallet (ui w))) eqn:V.
    + apply GateInv_launch_action with
        (req := post {| action := deposit_; wallet := Some (customWallet (ui w)) |});
        auto;
        [ intros s; rewrite (runSync_deposit_valid _ _ V); reflexivity
        | intros s; rewrite (runSync_deposit_valid _ _ V); reflexivity
        | exact (settles_deposit _ V) ].
    + apply GateInv_launch_local; auto;
        intros s; rewrite (runSync_deposit_malformed _ _ V); reflexivity.
  - destruct (_ && _); auto.
    apply GateInv_launch_local; auto.
  - destruct (find _ _) as [t|] eqn:F; auto.
    destruct (TimerInv_find _ _ _ T F) as (M & _ & h' & ->). simpl.
    apply GateInv_launch; simpl.
    + apply Forall_app. split; [apply G|].
      constructor; [exact settles_pollTick | constructor].
    + intros _. rewrite filter_app. simpl. rewrite app_nil_r. apply G, M.
  - destruct (take id (pending w)) as [[x rest]|] eqn:K; auto.
    destruct (take_split _ _ _ _ K) as (l1 & l2 & Hp & -> & _).
    destruct G as [GF GL]. rewrite Hp in GF, GL.
    apply Forall_app in GF as [GF1 GF2]. inversion GF2 as [|? ? Hx GF3]; subst.
    destruct (Hx r (ui w)) as (s' & Hrun & Hload).
    apply GateInv_launch; simpl; rewrite Hrun; simpl; rewrite app_nil_r.
    + apply Forall_app. auto.
    + intros M. specialize (GL M). rewrite Hload.
      rewrite filter_app in *. simpl in GL. rewrite length_app in *.
      destruct (userEntry x); simpl in GL; [|exact GL].
      destruct (isLoading (ui w)); lia.
  - destruct (mounted w) eqn:M; auto.
    split; [|discriminate].
    unfold unmount, runCleanup. destruct (cleanupFn w) as [[h|]|]; apply G.
Qed.

Lemma GateInv_mount : GateInv mount.
Proof. split; simpl; auto. Qed.

Lemma reachable_GateInv w : reachable w -> GateInv w.
Proof.
  induction 1; auto using GateInv_mount, GateInv_step, reachable_TimerInv.
Qed.

(** While a user action awaits its reply, the component shows [isLoading]. *)
Lemma in_flight_loading w :
  reachable w -> mounted w = true -> actionInFlight w -> isLoading (ui w) = true.
Proof.
  intros R M (x & Hin & Hx).
  destruct (reachable_GateInv w R) as [_ G]. specialize (G M).
  destruct (isLoading (ui w)); [reflexivity|].
  assert (Hf : In x (filter userEntry (pending w))) by (apply filter_In; auto).
  destruct (filter userEntry (pending w)); [destruct Hf | simpl in G; lia].
Qed.

(** ** Request identifiers *)

Lemma take_fresh id l x :
  Forall (fun y => (rid y < id)%positive) l -> rid x = id ->
  take id (l ++ [x]) = Some (x, l).
Proof.
  intros H Hx. induction H as [|y l Hy _ IH]; simpl.
  - rewrite Hx, Pos.eqb_refl. reflexivity.
  - destruct (Pos.eqb (rid y) id) eqn:E; [apply Pos.eqb_eq in E; lia|].
    rewrite IH. reflexivity.
Qed.

Lemma FreshInv_launch p w : FreshInv w -> FreshInv (launch p w).
Proof.
  unfold FreshInv, launch. destruct (runSync p (ui w)) as [s' paused].
  intros H.
  assert (H' : Forall (fun x => (rid x < nextRequest w)%positive)
                 (pending (if mounted w then commit s' w else w)) /\
               nextRequest (if mounted w then commit s' w else w) = nextRequest w).
  { destruct (mounted w); auto.
    destruct (commit_frame s' w) as (_ & _ & -> & _ & ->). auto. }
  destruct H' as [HF HN].
  destruct paused; simpl; rewrite ?HN; auto.
  apply Forall_app. split.
  - eapply Forall_impl; [|exact HF]. simpl. intros; lia.
  - constructor; [simpl; lia | constructor].
Qed.

Lemma FreshInv_step w e : FreshInv w -> FreshInv (step w e).
Proof.
  intros H. destruct e; simpl.
  - destruct (_ && _); auto using FreshInv_launch.
  - destruct (_ && _); auto using FreshInv_launch.
  - destruct (_ && _); auto using FreshInv_launch.
  - destruct (_ && _); auto using FreshInv_launch.
  - destruct (find _ _); auto using FreshInv_launch.
  - destruct (take id (pending w)) as [[x rest]|] eqn:K; auto.
    apply FreshInv_launch.
    destruct (take_split _ _ _ _ K) as (l1 & l2 & Hp & -> & _).
    unfold FreshInv in *. simpl. rewrite Hp in H.
    apply Forall_app in H as [H1 H2]. inversion H2; subst.
    apply Forall_app. auto.
  - destruct (mounted w); auto.
    unfold FreshInv, unmount, runCleanup.
    destruct (cleanupFn w) as [[h|]|]; exact H.
Qed.

Lemma reachable_FreshInv w : reachable w -> FreshInv w.
Proof.
  induction 1; auto using FreshInv_step. unfold FreshInv. simpl. constructor.
Qed.

(** ** Clicks and replies *)

(** A click on an enabled button runs the handler to its request, which is
    then in flight under the next identifier. *)
Lemma launch_awaits p req w :
  reachable w ->
  (forall s, snd (runSync p s) = Suspended req (kont p)) ->
  awaiting (launch p w) (nextRequest w) p /\
  sent (launch p w) = sent w ++ [req].
Proof.
  intros R Hp. destruct (launch_frame p w) as (_ & _ & Hpend & Hsent).
  rewrite Hp in Hpend, Hsent. simpl in Hpend, Hsent. split; [|exact Hsent].
  unfold awaiting. rewrite Hpend. eexists _, _. split.
  - apply take_fresh; [apply (reachable_FreshInv w R) | reflexivity].
  - reflexivity.
Qed.

Lemma step_reply w id r p :
  awaiting w id p ->
  exists rest, step w (Reply id r) = launch (kont p r) (withPending rest w).
Proof.
  intros (x & rest & H & Hk). exists rest. simpl. rewrite H, Hk. reflexivity.
Qed.

Lemma reply_ui w id r p :
  mounted w = true -> awaiting w id p ->
  ui (step w (Reply id r)) = fst (runSync (kont p r) (ui w)).
Proof.
  intros M A. destruct (step_reply w id r p A) as [rest ->].
  destruct (launch_frame (kont p r) (withPending rest w)) as (_ & -> & _).
  simpl. rewrite M. reflexivity.
Qed.

Lemma reply_sent w id r p :
  awaiting w id p ->
  sent (step w (Reply id r)) =
  sent w ++ map request (issued (snd (runSync (kont p r) (ui w))) (nextRequest w)).
Proof.
  intros A. destruct (step_reply w id r p A) as [rest ->].
  destruct (launch_frame (kont p r) (withPending rest w)) as (_ & _ & _ & ->).
  reflexivity.
Qed.

Lemma reply_timers w id r p :
  awaiting w id p ->
  isMining (fst (runSync (kont p r) (ui w))) = isMining (ui w) ->
  timers (step w (Reply id r)) = timers w.
Proof.
  intros A H. destruct (step_reply w id r p A) as [rest ->].
  rewrite launch_timers_same; [reflexivity | exact H].
Qed.

Lemma withUi_same w : withUi (ui w) w = w.
Proof. destruct w; reflexivity. Qed.

(** A tick of the live polling timer issues one status query and changes
    nothing else. *)
Lemma step_tick w h :
  mounted w = true -> timers w = [pollTimer h] ->
  step w (Tick h) = register (post {| action := status; wallet := None |}) (kont pollTick) w.
Proof.
  intros M Ht. simpl. rewrite Ht. simpl. rewrite Pos.eqb_refl.
  unfold launch. rewrite runSync_pollTick, M.
  rewrite commit_same_session by reflexivity. rewrite withUi_same. reflexivity.
Qed.

(** Once unmounted, the state cells are frozen. *)
Lemma step_unmounted_ui w e :
  mounted (step w e) = false -> ui (step w e) = ui w.
Proof.
  assert (L : forall p v, mounted (launch p v) = false -> ui (launch p v) = ui v).
  { intros p v. destruct (launch_frame p v) as (-> & -> & _). now intros ->. }
  destruct e; simpl.
  - destruct (_ && _); auto.
  - destruct (_ && _); auto.
  - destruct (_ && _); auto.
  - destruct (_ && _); auto.
  - destruct (find _ _); auto.
  - destruct (take _ _) as [[x rest]|]; auto.
    intros H. apply L in H. exact H.
  - destruct (mounted w); auto. intros _.
    unfold unmount, runCleanup. destruct (cleanupFn w) as [[h|]|]; reflexivity.
Qed.

(** Closed facts about concrete runs are settled by evaluation, one
    conjunct at a time. *)
Ltac evaluate :=
  cbv zeta;
  repeat match goal with |- _ /\ _ => split end;
  vm_compute; try reflexivity.

Lemma run_snoc es e : run (es ++ [e]) = step (run es) e.
Proof. unfold run. rewrite fold_left_app. reflexivity. Qed.

Lemma reachable_run es : reachable (run es).
Proof.
  induction es as [|e es IH] using rev_ind.
  - apply reach_mount.
  - rewrite run_snoc. apply reach_step, IH.
Qed.

(* ------------------------------------------------------------------ *)
(** * The claims *)

(** C1.  [deposit] goes on to its request exactly for the addresses that are
    26 to 35 characters long, start with [1] or [3] and contain only
    base58-safe characters, which are the addresses [walletAddressRegex]
    matches.  For every other address the call ends at once: the message is
    the error ['Invalid Bitcoin wallet address.'], every other state cell
    is as it was, and no request is issued.  A click on the Deposit button
    then leaves the requests sent and in flight as they were, and when the
    button is enabled it shows that error. *)
Theorem deposit_validates_address (a : jsString) :
  (walletAddressRegex_test a = true <-> wellFormedAddress a) /\
  ((forall s, exists s',
      runSync (deposit a) s =
      (s', Suspended {| url := "/api/mining"; method := "POST";
                        body := {| action := deposit_; wallet := Some a |} |}
                     (kont (deposit a))))
   <-> wellFormedAddress a) /\
  (~ wellFormedAddress a ->
   (forall s,
      snd (runSync (deposit a) s) = Finished /\
      message (fst (runSync (deposit a) s)) =
        Some {| type := error; text := Js.lit "Invalid Bitcoin wallet address." |} /\
      isMining (fst (runSync (deposit a) s)) = isMining s /\
      progress (fst (runSync (deposit a) s)) = progress s /\
      hashRate (fst (runSync (deposit a) s)) = hashRate s /\
      totalMined (fst (runSync (deposit a) s)) = totalMined s /\
      customWallet (fst (runSync (deposit a) s)) = customWallet s /\
      isLoading (fst (runSync (deposit a) s)) = isLoading s) /\
   (forall answer, requests (deposit a) answer = []) /\
   (forall w, customWallet (ui w) = a ->
      sent (step w ClickDeposit) = sent w /\
      pending (step w ClickDeposit) = pending w /\
      (mounted w = true -> depositDisabled (ui w) = false ->
       message (ui (step w ClickDeposit)) =
         Some {| type := error; text := Js.lit "Invalid Bitcoin wallet address." |}))).
Proof.
  pose proof (walletAddressRegex_test_spec a) as Hspec.
  split; [exact Hspec|]. split.
  - split.
    + intros H. apply Hspec.
      destruct (walletAddressRegex_test a) eqn:V; [reflexivity|].
      destruct (H initialState) as [s' Hs].
      rewrite (runSync_deposit_malformed _ _ V) in Hs. discriminate.
    + intros H s. apply Hspec in H. eexists. apply runSync_deposit_valid, H.
  - intros H.
    assert (V : walletAddressRegex_test a = false).
    { destruct (walletAddressRegex_test a) eqn:V; [|reflexivity].
      exfalso. apply H, Hspec. reflexivity. }
    split; [|split].
    + intros s. rewrite (runSync_deposit_malformed _ _ V). simpl.
      repeat (split; [reflexivity|]). reflexivity.
    + intros answer. apply requests_deposit_malformed, V.
    + intros w Hw. unfold step.
      destruct (mounted w && negb (depositDisabled (ui w))) eqn:G.
      * rewrite Hw.
        destruct (launch_frame (deposit a) w) as (_ & Hu & -> & ->).
        rewrite (runSync_deposit_malformed _ _ V) in Hu |- *. simpl.
        rewrite !app_nil_r. repeat split.
        intros M _. rewrite Hu, M. reflexivity.
      * repeat split. intros M E. rewrite M, E in G. discriminate G.
Qed.

Lemma deposit_validates_address_witness :
  message (fst (runSync (deposit (Js.lit "1BoatSLRHtKNngkdXEeobR76b53LETtpy0"))
                        initialState)) =
    Some {| type := error;
            text := [73; 110; 118; 97; 108; 105; 100; 32; 66; 105; 116; 99; 111; 105; 110; 32; 119; 97; 108; 108; 101; 116; 32; 97; 100; 100; 114; 101; 115; 115; 46]%N |} /\
  snd (runSync (deposit (Js.lit "1BoatSLRHtKNngkdXEeobR76b53LETtpy0")) initialState)
    = Finished /\
  requests (deposit (Js.lit "1BoatSLRHtKNngkdXEeobR76b53LETtpy0")) (fun _ => Rejected) = [].
Proof.
  assert (N : ~ wellFormedAddress (Js.lit "1BoatSLRHtKNngkdXEeobR76b53LETtpy0")).
  { intros H. apply walletAddressRegex_test_spec in H. vm_compute in H. discriminate. }
  destruct (proj2 (proj2 (deposit_validates_address
              (Js.lit "1BoatSLRHtKNngkdXEeobR76b53LETtpy0"))) N) as (H1 & H2 & _).
  destruct (H1 initialState) as (Hfin & Hmsg & _).
  split; [|split].
  - exact Hmsg.
  - exact Hfin.
  - exact (H2 (fun _ => Rejected)).
Defined.




(** C3.  With [isMining = false]: a click on the enabled Start button issues
    the start request; when its reply is an ok response, [isMining] becomes
    true and the message is the success ['Mining started.']; when the request
    fails (non-ok response or transport error), [isMining] stays false and
    an error message is posted.  The reply may arrive in any state [v] that
    still has [isMining = false]. *)
Theorem start_reply_outcome (w : World) :
  reachable w -> mounted w = true -> startDisabled (ui w) = false ->
  isMining (ui w) = false /\
  awaiting (step w ClickStart) (nextRequest w) startMining /\
  sent (step w ClickStart) = sent w ++ [post {| action := start; wallet := None |}] /\
  isMining (ui (step w ClickStart)) = false /\
  forall v id r,
    mounted v = true -> isMining (ui v) = false -> awaiting v id startMining ->
    (okResponse r ->
       isMining (ui (step v (Reply id r))) = true /\
       message (ui (step v (Reply id r))) =
         Some {| type := success; text := Js.lit "Mining started." |}) /\
    (failedRequest r ->
       isMining (ui (step v (Reply id r))) = false /\
       isError (message (ui (step v (Reply id r))))).
Proof.
  intros R M E.
  assert (Hm : isMining (ui w) = false).
  { unfold startDisabled in E. destruct (isMining (ui w)); [discriminate | reflexivity]. }
  split; [exact Hm|].
  assert (Hstep : step w ClickStart = launch startMining w).
  { simpl. now rewrite M, E. }
  rewrite Hstep.
  destruct (launch_awaits startMining (post {| action := start; wallet := None |}) w R)
    as [HA HS]; [reflexivity|].
  split; [exact HA|]. split; [exact HS|]. split.
  - destruct (launch_frame startMining w) as (_ & -> & _). rewrite M. exact Hm.
  - intros v id r Mv Hv A. rewrite (reply_ui v id r _ Mv A). split.
    + intros (res & -> & Hok). destruct res as [o b]. simpl in Hok. subst o.
      simpl. auto.
    + intros [->|(res & -> & Hok)].
      * simpl. split; [exact Hv | eexists; reflexivity].
      * destruct res as [o b]. simpl in Hok. subst o.
        simpl. split; [exact Hv | eexists; reflexivity].
Qed.

Lemma start_reply_outcome_witness :
  isMining (ui (step (step mount ClickStart) (Reply 1 (okReply emptyData)))) = true /\
  isMining (ui (step (step mount ClickStart) (Reply 1 Rejected))) = false.
Proof.
  pose proof (start_reply_outcome mount reach_mount eq_refl eq_refl)
    as (_ & A & _ & F & H).
  split.
  - apply (H (step mount ClickStart) 1%positive (okReply emptyData) eq_refl F A).
    eexists. split; reflexivity.
  - apply (H (step mount ClickStart) 1%positive Rejected eq_refl F A).
    left. reflexivity.
Defined.

(** C4.  In every reachable state no timer is live while [isMining] is
    false, nor once the component is unmounted.  A step that takes
    [isMining] from false to true leaves exactly the polling timer live
    (period 2000 ms, callback [pollTick]); a step that takes it from true to
    false leaves none; a tick leaves the timer running; unmounting clears
    it. *)
Theorem timer_follows_session (w : World) :
  reachable w ->
  (isMining (ui w) = false -> timers w = []) /\
  (mounted w = false -> timers w = []) /\
  (forall e, isMining (ui w) = false -> isMining (ui (step w e)) = true ->
             exists h, timers (step w e) = [pollTimer h]) /\
  (forall e, isMining (ui w) = true -> isMining (ui (step w e)) = false ->
             timers (step w e) = []) /\
  (forall h, timers (step w (Tick h)) = timers w) /\
  timers (step w Unmount) = [].
Proof.
  intros R.
  assert (Off : forall v, reachable v -> isMining (ui v) = false -> timers v = []).
  { intros v Rv Hv. pose proof (reachable_TimerInv v Rv) as T. unfold TimerInv in T.
    rewrite Hv in T. destruct (mounted v); apply T. }
  assert (Gone : forall v, reachable v -> mounted v = false -> timers v = []).
  { intros v Rv Hv. pose proof (reachable_TimerInv v Rv) as T. unfold TimerInv in T.
    rewrite Hv in T. apply T. }
  split; [apply Off, R|]. split; [apply Gone, R|]. split; [|split; [|split]].
  - intros e H0 H1.
    pose proof (reachable_TimerInv _ (reach_step w e R)) as T. unfold TimerInv in T.
    rewrite H1 in T. destruct (mounted (step w e)) eqn:M.
    + destruct T as (h & _ & Ht). eauto.
    + apply step_unmounted_ui in M. congruence.
  - intros e _ H1. apply Off; [apply reach_step, R | exact H1].
  - intros h. simpl. destruct (find _ _) as [t|] eqn:F; [|reflexivity].
    destruct (TimerInv_find _ _ _ (reachable_TimerInv w R) F) as (_ & _ & h' & ->).
    apply launch_timers_same. reflexivity.
  - apply Gone; [apply reach_step, R|]. simpl.
    destruct (mounted w) eqn:M; [reflexivity | exact M].
Qed.

Lemma timer_follows_session_witness :
  (exists h, timers (step (run [ClickStart]) (Reply 1 (okReply emptyData)))
             = [pollTimer h]) /\
  timers (step (run [ClickStart; Reply 1 (okReply emptyData); ClickStop])
               (Reply 2 (okReply emptyData))) = [] /\
  timers (step (run [ClickStart; Reply 1 (okReply emptyData)]) Unmount) = [].
Proof.
  split; [|split].
  - refine (proj1 (proj2 (proj2 (timer_follows_session (run [ClickStart])
              (reachable_run _)))) _ _ _); vm_compute; reflexivity.
  - refine (proj1 (proj2 (proj2 (proj2 (timer_follows_session
              (run [ClickStart; Reply 1 (okReply emptyData); ClickStop])
              (reachable_run _))))) _ _ _); vm_compute; reflexivity.
  - exact (proj2 (proj2 (proj2 (proj2 (proj2 (timer_follows_session
              (run [ClickStart; Reply 1 (okReply emptyData)])
              (reachable_run _))))))).
Defined.

(** C5.  When the reply to a status query is a non-ok response or a
    transport error, the component posts an error message and leaves
    [progress], [hashRate], [totalMined] and [isMining] as they were; the
    timers are untouched, so while the session is active the polling timer
    stays live and its next tick issues another status query. *)
Theorem poll_failure_keeps_state (w : World) (id : positive) (r : FetchResult) :
  reachable w -> mounted w = true -> awaiting w id pollTick -> failedRequest r ->
  isError (message (ui (step w (Reply id r)))) /\
  progress (ui (step w (Reply id r))) = progress (ui w) /\
  hashRate (ui (step w (Reply id r))) = hashRate (ui w) /\
  totalMined (ui (step w (Reply id r))) = totalMined (ui w) /\
  isMining (ui (step w (Reply id r))) = isMining (ui w) /\
  timers (step w (Reply id r)) = timers w /\
  (isMining (ui w) = true ->
   exists h, timers (step w (Reply id r)) = [pollTimer h] /\
             sent (step (step w (Reply id r)) (Tick h)) =
             sent (step w (Reply id r)) ++ [statusRequest]).
Proof.
  intros R M A F.
  assert (Hui : exists t, ui (step w (Reply id r)) =
                          assign (setMessage (Some {| type := error; text := t |})) (ui w)).
  { rewrite (reply_ui w id r _ M A).
    destruct F as [->|(res & -> & Hok)].
    - eexists. reflexivity.
    - destruct res as [o b]. simpl in Hok. subst o. eexists. reflexivity. }
  destruct Hui as [t Hui].
  assert (Ht : timers (step w (Reply id r)) = timers w).
  { apply (reply_timers w id r _ A).
    rewrite <- (reply_ui w id r _ M A), Hui. reflexivity. }
  rewrite Hui, Ht. repeat split; try reflexivity.
  - eexists. reflexivity.
  - intros Hm. pose proof (reachable_TimerInv w R) as T. unfold TimerInv in T.
    rewrite M, Hm in T. destruct T as (h & _ & Hw). exists h.
    split; [exact Hw|].
    rewrite step_tick.
    + reflexivity.
    + destruct (step_reply w id r _ A) as [rest ->].
      destruct (launch_frame (kont pollTick r) (withPending rest w)) as (-> & _).
      exact M.
    + rewrite Ht. exact Hw.
Qed.

Lemma poll_failure_keeps_state_witness :
  totalMined (ui (step (run (minedSession ++ [Tick 1])) (Reply 3 (notOkReply emptyData))))
    = totalMined (ui (run (minedSession ++ [Tick 1]))) /\
  isMining (ui (step (run (minedSession ++ [Tick 1])) (Reply 3 Rejected)))
    = isMining (ui (run (minedSession ++ [Tick 1]))).
Proof.
  assert (A : awaiting (run (minedSession ++ [Tick 1])) 3 pollTick).
  { vm_compute. eexists _, _. split; reflexivity. }
  assert (M : mounted (run (minedSession ++ [Tick 1])) = true)
    by (vm_compute; reflexivity).
  split.
  - refine (proj1 (proj2 (proj2 (proj2 (poll_failure_keeps_state _ 3%positive
              (notOkReply emptyData) (reachable_run _) M A _))))).
    right. eexists. split; reflexivity.
  - refine (proj1 (proj2 (proj2 (proj2 (proj2 (poll_failure_keeps_state _ 3%positive
              Rejected (reachable_run _) M A _)))))).
    left. reflexivity.
Defined.

(** C6.  When the reply to the request of [startMining], [stopMining] or of
    a [deposit] that passed validation arrives, whatever the reply (ok,
    non-ok, unreadable body, transport error), the handler runs to its end
    without another request and [isLoading] is false afterwards. *)
Theorem loading_cleared (w : World) (id : positive) (p : Async unit) (r : FetchResult) :
  mounted w = true -> userHandler p -> awaiting w id p ->
  isLoading (ui (step w (Reply id r))) = false /\
  (forall s, snd (runSync (kont p r) s) = Finished) /\
  sent (step w (Reply id r)) = sent w.
Proof.
  intros M H A.
  assert (S : settles true (kont p)).
  { destruct H as [->|[->|(a & V & ->)]];
      auto using settles_startMining, settles_stopMining, settles_deposit. }
  rewrite (reply_ui w id r _ M A), (reply_sent w id r _ A).
  destruct (S r (ui w)) as (s' & Hrun & Hl). rewrite Hrun. simpl.
  rewrite app_nil_r. repeat split; auto.
  intros s. destruct (S r s) as (s'' & -> & _). reflexivity.
Qed.

Lemma loading_cleared_witness :
  isLoading (ui (run [ClickStart])) = true /\
  isLoading (ui (step (run [ClickStart]) (Reply 1 Rejected))) = false.
Proof.
  split; [vm_compute; reflexivity|].
  refine (proj1 (loading_cleared (run [ClickStart]) 1%positive startMining Rejected _ _ _)).
  - vm_compute; reflexivity.
  - left. reflexivity.
  - vm_compute. eexists _, _. split; reflexivity.
Defined.

(** C7.  The gate is the [disabled] attribute of the buttons, through which
    every call of a handler comes.  In a reachable state, a click on Start
    while [isMining] is true, and a click on Start, Stop or Deposit while the
    request of a user action is in flight, changes nothing: no request is
    sent and none is queued. *)
Theorem gate_ignores_clicks (w : World) :
  reachable w ->
  (isMining (ui w) = true -> step w ClickStart = w) /\
  (actionInFlight w ->
   step w ClickStart = w /\ step w ClickStop = w /\ step w ClickDeposit = w).
Proof.
  intros R. split.
  - intros H. simpl. unfold startDisabled. rewrite H. simpl.
    now rewrite andb_false_r.
  - intros A. simpl. destruct (mounted w) eqn:M; simpl; auto.
    pose proof (in_flight_loading w R M A) as L.
    unfold startDisabled, stopDisabled, depositDisabled. rewrite L.
    rewrite !orb_true_r. simpl. auto.
Qed.

Lemma gate_ignores_clicks_witness :
  sent (run [ClickStart]) = [post {| action := start; wallet := None |}] /\
  step (run [ClickStart]) ClickStart = run [ClickStart] /\
  step (run [ClickStart]) ClickStop = run [ClickStart] /\
  step (run [ClickStart]) ClickDeposit = run [ClickStart].
Proof.
  split; [vm_compute; reflexivity|].
  refine (proj2 (gate_ignores_clicks (run [ClickStart]) (reachable_run _)) _).
  eexists. split; [left; reflexivity | reflexivity].
Defined.

(** C8, as stated, fails: the handler has no check of its own.  With a total
    of 0 and a valid address typed in, the Deposit button sends nothing, but
    a call of [deposit] sends the deposit request. *)
Lemma deposit_handler_unguarded_counterexample :
  let w := run [ChangeWallet payoutAddress] in
  totalMined (ui w) = 0%Q /\
  customWallet (ui w) = payoutAddress /\
  sent (step w ClickDeposit) = [] /\
  sent (launch (deposit (customWallet (ui w))) w) = [depositRequest payoutAddress].
Proof. evaluate. Qed.

(** C8, amended.  The precondition is defended at the Deposit button only:
    while [totalMined <= 0] a click changes nothing, so a click that sends a
    request had [totalMined > 0] and no request in flight.  The handler
    itself does not look at [totalMined]: called with an address that passes
    validation it sends the deposit request in every state. *)
Theorem deposit_gate_is_the_button (w : World) :
  ((totalMined (ui w) <= 0)%Q -> step w ClickDeposit = w) /\
  (sent (step w ClickDeposit) <> sent w ->
   (0 < totalMined (ui w))%Q /\ isLoading (ui w) = false /\ mounted w = true) /\
  (walletAddressRegex_test (customWallet (ui w)) = true ->
   sent (launch (deposit (customWallet (ui w))) w) =
   sent w ++ [depositRequest (customWallet (ui w))]).
Proof.
  split; [|split].
  - intros H. apply Qle_bool_iff in H. simpl. unfold depositDisabled.
    rewrite H, orb_true_r. simpl. now rewrite andb_false_r.
  - simpl. unfold depositDisabled.
    destruct (mounted w); simpl; [|congruence].
    destruct (isLoading (ui w)); simpl; [congruence|].
    destruct (Qle_bool (totalMined (ui w)) 0) eqn:E; simpl; [congruence|].
    intros _. repeat split. apply Qnot_le_lt. intros H.
    apply Qle_bool_iff in H. congruence.
  - intros V. destruct (launch_frame (deposit (customWallet (ui w))) w) as (_ & _ & _ & ->).
    rewrite (runSync_deposit_valid _ _ V). reflexivity.
Qed.

Lemma deposit_gate_is_the_button_witness :
  step (run [ChangeWallet payoutAddress]) ClickDeposit = run [ChangeWallet payoutAddress].
Proof.
  refine (proj1 (deposit_gate_is_the_button (run [ChangeWallet payoutAddress])) _).
  vm_compute. discriminate.
Defined.

(** C9.  For every address that satisfies the validation rule, one call of
    [deposit] issues exactly one request, however the endpoint answers: a
    POST to ['/api/mining'] whose body has the action ['deposit'] and, as
    its wallet, that address.  A click on the enabled Deposit button sends
    that one request, and the reply adds none. *)
Theorem deposit_issues_one_request (a : jsString) :
  wellFormedAddress a ->
  (forall answer,
     requests (deposit a) answer =
     [{| url := "/api/mining"; method := "POST";
         body := {| action := deposit_; wallet := Some a |} |}]) /\
  (forall w r,
     reachable w -> mounted w = true -> depositDisabled (ui w) = false ->
     customWallet (ui w) = a ->
     sent (step w ClickDeposit) =
       sent w ++ [{| url := "/api/mining"; method := "POST";
                     body := {| action := deposit_; wallet := Some a |} |}] /\
     sent (step (step w ClickDeposit) (Reply (nextRequest w) r)) =
       sent w ++ [{| url := "/api/mining"; method := "POST";
                     body := {| action := deposit_; wallet := Some a |} |}]).
Proof.
  intros H. apply walletAddressRegex_test_spec in H. split.
  - intros answer. apply (requests_deposit_valid a answer H).
  - intros w r R M E Hw.
    assert (Hstep : step w ClickDeposit = launch (deposit a) w).
    { simpl. now rewrite M, E, Hw. }
    rewrite Hstep.
    destruct (launch_awaits (deposit a) (depositRequest a) w R) as [HA HS].
    { intros s. rewrite (runSync_deposit_valid _ _ H). reflexivity. }
    split; [exact HS|].
    rewrite (reply_sent _ _ r _ HA), HS.
    destruct (settles_deposit a H r (ui (launch (deposit a) w))) as (s' & -> & _).
    simpl. apply app_nil_r.
Qed.

Lemma deposit_issues_one_request_witness :
  requests (deposit boatAddress) (fun _ => okReply emptyData) =
  [{| url := "/api/mining"; method := "POST";
      body := {| action := deposit_; wallet := Some boatAddress |} |}] /\
  map (fun req => wallet (body req))
      (requests (deposit boatAddress) (fun _ => Rejected)) = [Some boatAddress].
Proof.
  assert (W : wellFormedAddress boatAddress).
  { apply walletAddressRegex_test_spec. vm_compute. reflexivity. }
  split.
  - exact (proj1 (deposit_issues_one_request boatAddress W) (fun _ => okReply emptyData)).
  - exact (f_equal (map (fun req => wallet (body req)))
             (proj1 (deposit_issues_one_request boatAddress W) (fun _ => Rejected))).
Defined.

Lemma ticks_keep_polling h n : forall w,
  mounted w = true -> timers w = [pollTimer h] ->
  sent (ticks h n w) = sent w ++ repeat statusRequest n /\
  timers (ticks h n w) = [pollTimer h] /\
  ui (ticks h n w) = ui w.
Proof.
  induction n as [|n IH]; intros w M Ht.
  - simpl. rewrite app_nil_r. auto.
  - change (ticks h (S n) w) with (ticks h n (step w (Tick h))).
    rewrite (step_tick w h M Ht).
    destruct (IH (register statusRequest (kont pollTick) w) M Ht) as (H1 & H2 & H3).
    fold statusRequest. rewrite H1, H2, H3.
    simpl. rewrite <- app_assoc. auto.
Qed.

(** C10.  When the request of [stopMining] fails (non-ok response or
    transport error) while the session is active, [isMining] stays true, an
    error message is posted, and the polling timer stays live: each of its
    following ticks issues one more status query. *)
Theorem failed_stop_keeps_polling (w : World) (id : positive) (r : FetchResult) :
  reachable w -> mounted w = true -> isMining (ui w) = true ->
  awaiting w id stopMining -> failedRequest r ->
  isMining (ui (step w (Reply id r))) = true /\
  isError (message (ui (step w (Reply id r)))) /\
  timers (step w (Reply id r)) = timers w /\
  exists h,
    timers (step w (Reply id r)) = [pollTimer h] /\
    forall n,
      sent (ticks h n (step w (Reply id r))) =
        sent (step w (Reply id r)) ++ repeat statusRequest n /\
      timers (ticks h n (step w (Reply id r))) = [pollTimer h].
Proof.
  intros R M Hm A F.
  assert (Hui : exists t, ui (step w (Reply id r)) =
                  assign (setIsLoading false)
                    (assign (setMessage (Some {| type := error; text := t |})) (ui w))).
  { rewrite (reply_ui w id r _ M A).
    destruct F as [->|(res & -> & Hok)].
    - eexists. reflexivity.
    - destruct res as [o b]. simpl in Hok. subst o. eexists. reflexivity. }
  destruct Hui as [t Hui].
  assert (Ht : timers (step w (Reply id r)) = timers w).
  { apply (reply_timers w id r _ A).
    rewrite <- (reply_ui w id r _ M A), Hui. reflexivity. }
  assert (M' : mounted (step w (Reply id r)) = true).
  { destruct (step_reply w id r _ A) as [rest ->].
    destruct (launch_frame (kont stopMining r) (withPending rest w)) as (-> & _).
    exact M. }
  pose proof (reachable_TimerInv w R) as T. unfold TimerInv in T.
  rewrite M, Hm in T. destruct T as (h & _ & Hw).
  split; [rewrite Hui; exact Hm|].
  split; [rewrite Hui; eexists; reflexivity|].
  split; [exact Ht|].
  exists h. split; [rewrite Ht; exact Hw|].
  intros n.
  destruct (ticks_keep_polling h n (step w (Reply id r)) M') as (H1 & H2 & _).
  - rewrite Ht. exact Hw.
  - auto.
Qed.

Lemma failed_stop_keeps_polling_witness :
  isMining (ui (step (run (minedSession ++ [ClickStop])) (Reply 3 (notOkReply emptyData))))
    = true /\
  timers (step (run (minedSession ++ [ClickStop])) (Reply 3 (notOkReply emptyData)))
    = timers (run (minedSession ++ [ClickStop])).
Proof.
  assert (H := failed_stop_keeps_polling (run (minedSession ++ [ClickStop])) 3%positive
                 (notOkReply emptyData) (reachable_run _)).
  assert (M : mounted (run (minedSession ++ [ClickStop])) = true)
    by (vm_compute; reflexivity).
  assert (I : isMining (ui (run (minedSession ++ [ClickStop]))) = true)
    by (vm_compute; reflexivity).
  assert (A : awaiting (run (minedSession ++ [ClickStop])) 3 stopMining).
  { vm_compute. eexists _, _. split; reflexivity. }
  assert (F : failedRequest (notOkReply emptyData)).
  { right. eexists. split; reflexivity. }
  destruct (H M I A F) as (H1 & _ & H3 & _). split; assumption.
Defined.

(* ------------------------------------------------------------------ *)
(** * Worked examples *)

Example boat_address_matches : walletAddressRegex_test boatAddress = true.
Proof. vm_compute. reflexivity. Qed.

Example payout_address_matches : walletAddressRegex_test payoutAddress = true.
Proof. vm_compute. reflexivity. Qed.

(** 25 and 36 characters: one too few, one too many. *)
Example too_short_rejected :
  walletAddressRegex_test (Js.lit "1BoatSLRHtKNngkdXEeobR76b") = false.
Proof. vm_compute. reflexivity. Qed.

Example too_long_rejected :
  walletAddressRegex_test (Js.lit "1BoatSLRHtKNngkdXEeobR76b53LETtpyT12") = false.
Proof. vm_compute. reflexivity. Qed.

Example wrong_prefix_rejected :
  walletAddressRegex_test (Js.lit "2BoatSLRHtKNngkdXEeobR76b53LETtpyT") = false.
Proof. vm_compute. reflexivity. Qed.

Example lowercase_l_rejected :
  walletAddressRegex_test (Js.lit "1BoatSLRHtKNngkdXEeobR76b53LETtpyl") = false.
Proof. vm_compute. reflexivity. Qed.

(** [$] without the [m] flag does not accept a trailing line feed. *)
Example trailing_newline_rejected :
  walletAddressRegex_test (boatAddress ++ [10%N]) = false.
Proof. vm_compute. reflexivity. Qed.

(** The end-to-end scenario: a stopped session that accrued 12.5, a deposit
    to [3J98t1WpEZ73CNmQviecrnyiWrnqRhWNLy] answered ok with the message
    ['Deposit successful.']. *)
Example end_to_end_deposit :
  let d := {| Data.progress := 0; Data.hashRate := 0; Data.totalMined := 0;
              Data.message := Some (Js.lit "Deposit successful.") |} in
  let before := run (minedSession ++ [ClickStop; Reply 3 (okReply emptyData);
                                      ChangeWallet payoutAddress]) in
  let after := step (step before ClickDeposit) (Reply 4 (okReply d)) in
  isMining (ui before) = false /\ totalMined (ui before) = 25 # 2 /\
  timers before = [] /\
  message (ui after) = Some {| type := success; text := Js.lit "Deposit successful." |} /\
  totalMined (ui after) = 0%Q /\ isLoading (ui after) = false /\
  sent after = sent before ++ [depositRequest payoutAddress].
Proof. evaluate. Qed.

(* ------------------------------------------------------------------ *)
(** * Further properties of the component *)

(** ** What a reply does to the state, by the request it answers *)

Lemma reply_summary req k :
  sentBy req k ->
  forall r s, exists s',
    runSync (k r) s = (s', Finished) /\
    customWallet s' = customWallet s /\
    isLoading s' = (if isUserAction (action (body req)) then false else isLoading s) /\
    isMining s' = match action (body req) with
                  | start => if replyOk r then true else isMining s
                  | stop => if replyOk r then false else isMining s
                  | status | deposit_ => isMining s
                  end /\
    totalMined s' = match action (body req), replyData r with
                    | status, Some d => Data.totalMined d
                    | deposit_, Some _ => 0%Q
                    | _, _ => totalMined s
                    end /\
    progress s' = match action (body req), replyData r with
                  | status, Some d => Data.progress d
                  | _, _ => progress s
                  end /\
    hashRate s' = match action (body req), replyData r with
                  | status, Some d => Data.hashRate d
                  | _, _ => hashRate s
                  end.
Proof.
  unfold sentBy. intros H r s.
  destruct (action (body req)).
  - destruct H as [_ ->].
    destruct r as [|[[] [d|]]]; eexists; repeat split; reflexivity.
  - destruct H as [_ ->].
    destruct r as [|[[] [d|]]]; eexists; repeat split; reflexivity.
  - destruct H as [_ ->].
    destruct r as [|[[] [d|]]]; eexists; repeat split; reflexivity.
  - destruct H as (a & V & _ & ->). unfold deposit. simpl kont. rewrite V. simpl.
    destruct r as [|[[] [d|]]]; eexists; repeat split; reflexivity.
Qed.

Lemma sentBy_settles req k :
  sentBy req k -> settles (isUserAction (action (body req))) k.
Proof.
  intros H r s. destruct (reply_summary req k H r s) as (s' & Hr & _ & Hl & _).
  eauto.
Qed.

Lemma sentBy_wellFormed req k : sentBy req k -> wellFormedRequest req.
Proof.
  unfold sentBy, wellFormedRequest. destruct (action (body req)) eqn:E.
  - intros [-> _]. repeat split.
  - intros [-> _]. repeat split.
  - intros [-> _]. repeat split.
  - intros (a & V & -> & _). simpl. repeat split.
    exists a. split; [reflexivity|]. apply walletAddressRegex_test_spec, V.
Qed.

Lemma launch_suspended p w s1 req k :
  runSync p (ui w) = (s1, Suspended req k) ->
  mounted (launch p w) = mounted w /\
  ui (launch p w) = (if mounted w then s1 else ui w) /\
  pending (launch p w) =
    pending w ++ [{| rid := nextRequest w; request := req; resume := k |}] /\
  sent (launch p w) = sent w ++ [req].
Proof.
  intros H. destruct (launch_frame p w) as (H1 & H2 & H3 & H4).
  rewrite H in H2, H3, H4. auto.
Qed.

Lemma launch_finished p w s1 :
  runSync p (ui w) = (s1, Finished) ->
  mounted (launch p w) = mounted w /\
  ui (launch p w) = (if mounted w then s1 else ui w) /\
  pending (launch p w) = pending w /\
  sent (launch p w) = sent w.
Proof.
  intros H. destruct (launch_frame p w) as (H1 & H2 & H3 & H4).
  rewrite H in H2, H3, H4. simpl in H3, H4. rewrite app_nil_r in H3, H4. auto.
Qed.

(** ** Every request in flight belongs to a handler, and every request sent
    is well formed *)

Definition RequestsInv (w : World) : Prop :=
  PendingInv w /\ Forall wellFormedRequest (sent w).

Lemma RequestsInv_suspended p w s1 req k :
  runSync p (ui w) = (s1, Suspended req k) -> sentBy req k ->
  RequestsInv w -> RequestsInv (launch p w).
Proof.
  intros H S [P W]. destruct (launch_suspended p w s1 req k H) as (_ & _ & Hp & Hs).
  unfold RequestsInv, PendingInv. rewrite Hp, Hs. split.
  - apply Forall_app. split; [exact P|]. constructor; [exact S | constructor].
  - apply Forall_app. split; [exact W|].
    constructor; [exact (sentBy_wellFormed _ _ S) | constructor].
Qed.

Lemma RequestsInv_finished p w s1 :
  runSync p (ui w) = (s1, Finished) -> RequestsInv w -> RequestsInv (launch p w).
Proof.
  intros H [P W]. destruct (launch_finished p w s1 H) as (_ & _ & Hp & Hs).
  unfold RequestsInv, PendingInv. rewrite Hp, Hs. auto.
Qed.

Lemma sentBy_start : sentBy startRequest (kont startMining).
Proof. split; reflexivity. Qed.

Lemma sentBy_stop : sentBy stopRequest (kont stopMining).
Proof. split; reflexivity. Qed.

Lemma sentBy_status : sentBy statusRequest (kont pollTick).
Proof. split; reflexivity. Qed.

Lemma sentBy_deposit a :
  walletAddressRegex_test a = true -> sentBy (depositRequest a) (kont (deposit a)).
Proof. intros V. exists a. auto. Qed.

Lemma RequestsInv_step w e : TimerInv w -> RequestsInv w -> RequestsInv (step w e).
Proof.
  intros T I. destruct e; simpl.
  - destruct (_ && _); auto.
    eapply RequestsInv_suspended; eauto using runSync_startMining, sentBy_start.
  - destruct (_ && _); auto.
    eapply RequestsInv_suspended; eauto using runSync_stopMining, sentBy_stop.
  - destruct (_ && _); auto.
    destruct (walletAddressRegex_test (customWallet (ui w))) eqn:V.
    + eapply RequestsInv_suspended;
        eauto using runSync_deposit_valid, sentBy_deposit.
    + eapply RequestsInv_finished; eauto using runSync_deposit_malformed.
  - destruct (_ && _); auto.
    eapply RequestsInv_finished; [reflexivity | exact I].
  - destruct (find _ _) as [t|] eqn:F; auto.
    destruct (TimerInv_find _ _ _ T F) as (_ & _ & h' & ->).
    eapply RequestsInv_suspended; eauto using runSync_pollTick, sentBy_status.
  - destruct (take id (pending w)) as [[x rest]|] eqn:K; auto.
    destruct (take_split _ _ _ _ K) as (l1 & l2 & Hp & -> & _).
    destruct I as [P W]. unfold PendingInv in P. rewrite Hp in P.
    apply Forall_app in P as [P1 P2]. inversion P2 as [|? ? Hx P3]; subst.
    destruct (reply_summary _ _ Hx r (ui w)) as (s' & Hrun & _).
    eapply RequestsInv_finished; [exact Hrun|].
    split; [|exact W]. unfold PendingInv. simpl. apply Forall_app. auto.
  - destruct (mounted w); auto.
    unfold RequestsInv, PendingInv, unmount, runCleanup.
    destruct (cleanupFn w) as [[h|]|]; exact I.
Qed.

Lemma reachable_RequestsInv w : reachable w -> RequestsInv w.
Proof.
  induction 1; auto using RequestsInv_step, reachable_TimerInv.
  split; constructor.
Qed.

(** ** The screen agrees with what is in flight *)

Definition ScreenInv (w : World) : Prop := LoadingInv w /\ FlightInv w.

Lemma no_user_entries l :
  filter userEntry l = [] ->
  forall x, In x l -> action (body (request x)) = status.
Proof.
  intros H x Hx.
  destruct (userEntry x) eqn:U.
  - assert (Hin : In x (filter userEntry l)) by (apply filter_In; auto).
    rewrite H in Hin. destruct Hin.
  - unfold userEntry in U. destruct (action (body (request x))); try discriminate.
    reflexivity.
Qed.

Lemma length_zero_nil {A : Type} (l : list A) : List.length l = 0 -> l = [].
Proof. destruct l; [reflexivity | discriminate]. Qed.

Lemma ScreenInv_idle w :
  ScreenInv w -> mounted w = true -> isLoading (ui w) = false ->
  filter userEntry (pending w) = [].
Proof.
  intros [[_ L] _] M Hl. specialize (L M). rewrite Hl in L.
  apply length_zero_nil, L.
Qed.

Lemma ScreenInv_action p w s1 req k :
  ScreenInv w -> mounted w = true -> isLoading (ui w) = false ->
  runSync p (ui w) = (s1, Suspended req k) ->
  isUserAction (action (body req)) = true -> isLoading s1 = true ->
  match action (body req) with
  | start => isMining s1 = false
  | stop => isMining s1 = true
  | deposit_ => wallet (body req) = Some (customWallet s1)
  | status => True
  end ->
  ScreenInv (launch p w).
Proof.
  intros I M Hl Hrun U Hl1 Hnew.
  pose proof (ScreenInv_idle w I M Hl) as Hidle.
  destruct (launch_suspended p w s1 req k Hrun) as (Hm & Hu & Hp & _).
  rewrite M in Hu.
  assert (Hf : filter userEntry (pending (launch p w)) =
               [{| rid := nextRequest w; request := req; resume := k |}]).
  { rewrite Hp, filter_app, Hidle. simpl. unfold userEntry. simpl. now rewrite U. }
  split.
  - split; rewrite Hf; simpl; [lia|]. intros _. now rewrite Hu, Hl1.
  - intros _ x Hx. rewrite Hp in Hx. apply in_app_or in Hx as [Hx|[<-|[]]].
    + rewrite (no_user_entries _ Hidle x Hx). trivial.
    + simpl. rewrite Hu. exact Hnew.
Qed.

Lemma ScreenInv_local p w s1 :
  ScreenInv w -> mounted w = true -> isLoading (ui w) = false ->
  runSync p (ui w) = (s1, Finished) -> isLoading s1 = false ->
  ScreenInv (launch p w).
Proof.
  intros I M Hl Hrun Hl1.
  pose proof (ScreenInv_idle w I M Hl) as Hidle.
  destruct (launch_finished p w s1 Hrun) as (Hm & Hu & Hp & _).
  rewrite M in Hu. split.
  - split; rewrite Hp, Hidle; simpl; [lia|]. intros _. now rewrite Hu, Hl1.
  - intros _ x Hx. rewrite Hp in Hx.
    rewrite (no_user_entries _ Hidle x Hx). trivial.
Qed.

Lemma ScreenInv_tick w : ScreenInv w -> ScreenInv (launch pollTick w).
Proof.
  intros [[L1 L2] F].
  destruct (launch_suspended pollTick w _ _ _ (runSync_pollTick (ui w)))
    as (Hm & Hu & Hp & _).
  assert (Hui : ui (launch pollTick w) = ui w) by (rewrite Hu; destruct (mounted w); auto).
  assert (Hf : filter userEntry (pending (launch pollTick w)) =
               filter userEntry (pending w)).
  { rewrite Hp, filter_app. simpl. apply app_nil_r. }
  split.
  - split; rewrite Hf; [exact L1|]. rewrite Hm, Hui. exact L2.
  - unfold FlightInv. rewrite Hm. intros M x Hx. rewrite Hp in Hx. rewrite Hui.
    apply in_app_or in Hx as [Hx|[<-|[]]]; [exact (F M x Hx) | simpl; trivial].
Qed.

Lemma ScreenInv_reply w id r x rest :
  PendingInv w -> take id (pending w) = Some (x, rest) ->
  ScreenInv w -> ScreenInv (launch (resume x r) (withPending rest w)).
Proof.
  intros P K [[L1 L2] F].
  destruct (take_split _ _ _ _ K) as (l1 & l2 & Hp & -> & _).
  unfold PendingInv in P. rewrite Hp in P.
  apply Forall_app in P as [_ P2]. inversion P2 as [|? ? Hx _]; subst.
  destruct (reply_summary _ _ Hx r (ui w)) as (s' & Hrun & Hcw & Hl & Hmi & _).
  destruct (launch_finished (resume x r) (withPending (l1 ++ l2) w) s' Hrun)
    as (Hm & Hu & Hpend & _).
  simpl in Hm, Hu, Hpend.
  assert (Hcount : List.length (filter userEntry (pending w)) =
                   List.length (filter userEntry (l1 ++ l2)) +
                   (if userEntry x then 1 else 0)).
  { rewrite Hp, !filter_app, !length_app. simpl.
    destruct (userEntry x); simpl; lia. }
  split.
  - split; rewrite Hpend; [lia|].
    rewrite Hm, Hu. intros M. rewrite M. specialize (L2 M). rewrite Hl.
    fold (userEntry x). destruct (userEntry x); [lia|].
    rewrite <- L2. lia.
  - unfold FlightInv. rewrite Hm, Hpend, Hu. intros M y Hy. rewrite M.
    destruct (userEntry x) eqn:U.
    + assert (Hnil : filter userEntry (l1 ++ l2) = []) by (apply length_zero_nil; lia).
      rewrite (no_user_entries _ Hnil y Hy). trivial.
    + assert (Hin : In y (pending w)).
      { rewrite Hp. apply in_or_app. apply in_app_or in Hy as [?|?]; [left|right; right]; auto. }
      specialize (F M y Hin). rewrite Hcw.
      assert (Hmi' : isMining s' = isMining (ui w)).
      { rewrite Hmi. unfold userEntry in U.
        destruct (action (body (request x))); try discriminate; reflexivity. }
      rewrite Hmi'. exact F.
Qed.

Lemma ScreenInv_step w e :
  TimerInv w -> PendingInv w -> ScreenInv w -> ScreenInv (step w e).
Proof.
  intros T P I. destruct e; simpl.
  - destruct (mounted w) eqn:M; simpl; auto.
    unfold startDisabled. destruct (isMining (ui w)) eqn:Hm; simpl; auto.
    destruct (isLoading (ui w)) eqn:L; simpl; auto.
    eapply ScreenInv_action; eauto using runSync_startMining.
  - destruct (mounted w) eqn:M; simpl; auto.
    unfold stopDisabled. destruct (isMining (ui w)) eqn:Hm; simpl; auto.
    destruct (isLoading (ui w)) eqn:L; simpl; auto.
    eapply ScreenInv_action; eauto using runSync_stopMining.
  - destruct (mounted w) eqn:M; simpl; auto.
    unfold depositDisabled. destruct (isLoading (ui w)) eqn:L; simpl; auto.
    destruct (Qle_bool _ _); simpl; auto.
    destruct (walletAddressRegex_test (customWallet (ui w))) eqn:V.
    + eapply ScreenInv_action; eauto using runSync_deposit_valid. reflexivity.
    + eapply ScreenInv_local; eauto using runSync_deposit_malformed.
  - destruct (mounted w) eqn:M; simpl; auto.
    unfold inputDisabled. destruct (isLoading (ui w)) eqn:L; simpl; auto.
    apply ScreenInv_local with (s1 := assign (setCustomWallet v) (ui w)); auto.
  - destruct (find _ _) as [t|] eqn:F; auto.
    destruct (TimerInv_find _ _ _ T F) as (_ & _ & h' & ->).
    apply ScreenInv_tick, I.
  - destruct (take id (pending w)) as [[x rest]|] eqn:K; auto.
    eapply ScreenInv_reply; eauto.
  - destruct (mounted w) eqn:M; auto.
    destruct I as [[L1 _] _]. split.
    + split; [|discriminate].
      unfold unmount, runCleanup. destruct (cleanupFn w) as [[h|]|]; exact L1.
    + intros H. discriminate H.
Qed.

Lemma reachable_ScreenInv w : reachable w -> ScreenInv w.
Proof.
  induction 1 as [|w e R IH].
  - split; [split; simpl; auto | intros _ x []].
  - apply ScreenInv_step; auto using reachable_TimerInv.
    apply (reachable_RequestsInv w R).
Qed.

(** ** From requests in flight to the code that awaits them *)

Lemma okResponse_replyOk r : okResponse r <-> replyOk r = true.
Proof.
  split.
  - intros (res & -> & H). exact H.
  - destruct r as [|res]; [discriminate|]. intros H. exists res. auto.
Qed.

Lemma failedRequest_replyOk r : failedRequest r <-> replyOk r = false.
Proof.
  split.
  - intros [->|(res & -> & H)]; [reflexivity | exact H].
  - destruct r as [|res]; [left; reflexivity|]. intros H. right. exists res. auto.
Qed.

Lemma okWithBody_replyData r d : okWithBody r d <-> replyData r = Some d.
Proof.
  split.
  - intros (res & -> & H1 & H2). simpl. now rewrite H1.
  - destruct r as [|[o b]]; [discriminate|]. simpl. destruct o; [|discriminate].
    intros ->. eexists. repeat split.
Qed.

Lemma okUnreadable_replyData r :
  okUnreadable r <-> replyOk r = true /\ replyData r = None.
Proof.
  split.
  - intros (res & -> & H1 & H2). simpl. rewrite H1. auto.
  - destruct r as [|[o b]]; [intros [H _]; discriminate|]. simpl.
    intros [-> ->]. eexists. repeat split.
Qed.

Lemma inFlight_entry w id req :
  reachable w -> inFlight w id req ->
  exists x rest,
    take id (pending w) = Some (x, rest) /\ request x = req /\
    In x (pending w) /\ sentBy req (resume x).
Proof.
  intros R (x & rest & K & Hreq). exists x, rest.
  destruct (take_split _ _ _ _ K) as (l1 & l2 & Hp & _ & _).
  assert (Hin : In x (pending w)).
  { rewrite Hp. apply in_or_app. right. left. reflexivity. }
  repeat split; auto.
  destruct (reachable_RequestsInv w R) as [P _]. unfold PendingInv in P.
  rewrite Forall_forall in P. rewrite <- Hreq. apply P, Hin.
Qed.

Lemma inFlight_start w id :
  reachable w -> inFlight w id startRequest -> awaiting w id startMining.
Proof.
  intros R H. destruct (inFlight_entry w id _ R H) as (x & rest & K & _ & _ & [_ S]).
  exists x, rest. auto.
Qed.

Lemma inFlight_stop w id :
  reachable w -> inFlight w id stopRequest -> awaiting w id stopMining.
Proof.
  intros R H. destruct (inFlight_entry w id _ R H) as (x & rest & K & _ & _ & [_ S]).
  exists x, rest. auto.
Qed.

Lemma inFlight_status w id :
  reachable w -> inFlight w id statusRequest -> awaiting w id pollTick.
Proof.
  intros R H. destruct (inFlight_entry w id _ R H) as (x & rest & K & _ & _ & [_ S]).
  exists x, rest. auto.
Qed.

Lemma inFlight_deposit w id a :
  reachable w -> inFlight w id (depositRequest a) ->
  walletAddressRegex_test a = true /\ awaiting w id (deposit a).
Proof.
  intros R H.
  destruct (inFlight_entry w id _ R H) as (x & rest & K & _ & _ & (a' & V & E & S)).
  injection E as <-. split; [exact V|]. exists x, rest. auto.
Qed.

(** The world after a reply, field by field. *)
Lemma reply_effect w id r x rest :
  reachable w -> take id (pending w) = Some (x, rest) ->
  exists s',
    runSync (resume x r) (ui w) = (s', Finished) /\
    mounted (step w (Reply id r)) = mounted w /\
    ui (step w (Reply id r)) = (if mounted w then s' else ui w) /\
    pending (step w (Reply id r)) = rest /\
    sent (step w (Reply id r)) = sent w.
Proof.
  intros R K.
  assert (H : inFlight w id (request x)) by (exists x, rest; auto).
  destruct (inFlight_entry w id _ R H) as (x' & rest' & K' & _ & _ & S).
  rewrite K in K'. injection K' as <- <-.
  destruct (reply_summary _ _ S r (ui w)) as (s' & Hrun & _).
  exists s'. split; [exact Hrun|].
  simpl. rewrite K.
  destruct (launch_finished (resume x r) (withPending rest w) s' Hrun)
    as (H1 & H2 & H3 & H4).
  auto.
Qed.

Lemma reply_mounted w id r : mounted (step w (Reply id r)) = mounted w.
Proof.
  simpl. destruct (take id (pending w)) as [[x rest]|]; [|reflexivity].
  destruct (launch_frame (resume x r) (withPending rest w)) as (-> & _).
  reflexivity.
Qed.

Lemma tick_without_timers v h : timers v = [] -> step v (Tick h) = v.
Proof. intros H. simpl. rewrite H. reflexivity. Qed.

(** ** The remaining paths of the handlers *)

(** X1.  An ok reply to the stop request ends the session: [isMining]
    goes from true to false, the success ['Mining stopped.'] is posted,
    [isLoading] is cleared, no timer is left, and from then on a tick of any
    handle does nothing. *)
Theorem stop_success_ends_session (w : World) (id : positive) (r : FetchResult) :
  reachable w -> mounted w = true -> inFlight w id stopRequest -> okResponse r ->
  isMining (ui w) = true /\
  isMining (ui (step w (Reply id r))) = false /\
  message (ui (step w (Reply id r))) =
    Some {| type := success; text := Js.lit "Mining stopped." |} /\
  isLoading (ui (step w (Reply id r))) = false /\
  timers (step w (Reply id r)) = [] /\
  forall h, step (step w (Reply id r)) (Tick h) = step w (Reply id r).
Proof.
  intros R M H Hok.
  destruct (inFlight_entry w id _ R H) as (x & rest & K & Hreq & Hin & _).
  pose proof (proj2 (reachable_ScreenInv w R) M x Hin) as F. rewrite Hreq in F.
  simpl in F. split; [exact F|].
  pose proof (inFlight_stop w id R H) as A.
  assert (Hui : ui (step w (Reply id r)) =
                assign (setIsLoading false)
                  (assign (say success "Mining stopped.")
                     (assign (setIsMining false) (ui w)))).
  { rewrite (reply_ui w id r _ M A).
    destruct Hok as (res & -> & Hres). destruct res as [o b]. simpl in Hres.
    subst o. reflexivity. }
  assert (Ht : timers (step w (Reply id r)) = []).
  { pose proof (reachable_TimerInv _ (reach_step w (Reply id r) R)) as T.
    unfold TimerInv in T. rewrite reply_mounted, M, Hui in T. apply T. }
  rewrite Hui. repeat split; auto.
  intros h. apply tick_without_timers. exact Ht.
Qed.

Lemma stop_success_ends_session_witness :
  timers (run (minedSession ++ [ClickStop])) = [pollTimer 1] /\
  timers (step (run (minedSession ++ [ClickStop])) (Reply 3 (okReply emptyData))) = [].
Proof.
  split; [vm_compute; reflexivity|].
  refine (proj1 (proj2 (proj2 (proj2 (proj2
            (stop_success_ends_session (run (minedSession ++ [ClickStop])) 3%positive
               (okReply emptyData) (reachable_run _) _ _ _)))))).
  - vm_compute; reflexivity.
  - vm_compute. eexists _, _. split; reflexivity.
  - eexists. split; reflexivity.
Defined.

Lemma status_reply_state w id r d :
  reachable w -> mounted w = true -> inFlight w id statusRequest ->
  okWithBody r d ->
  ui (step w (Reply id r)) =
  mkState (isMining (ui w)) (Data.progress d) (Data.hashRate d)
          (Data.totalMined d) (customWallet (ui w)) (message (ui w))
          (isLoading (ui w)).
Proof.
  intros R M H (res & -> & Hok & Hb).
  rewrite (reply_ui w id _ _ M (inFlight_status w id R H)).
  destruct res as [o b]. simpl in Hok, Hb. subst. reflexivity.
Qed.

(** X2.  An ok reply to a status query with a readable body overwrites
    [progress], [hashRate] and [totalMined] with the values of the body, as
    they are, and leaves every other cell, the timers and the requests
    alone.  When the body of an ok reply cannot be read, the error
    ['Error fetching mining status.'] is posted and no cell is updated. *)
Theorem poll_success_overwrites (w : World) (id : positive) (r : FetchResult) :
  reachable w -> mounted w = true -> inFlight w id statusRequest ->
  (forall d, okWithBody r d ->
     ui (step w (Reply id r)) =
     mkState (isMining (ui w)) (Data.progress d) (Data.hashRate d)
             (Data.totalMined d) (customWallet (ui w)) (message (ui w))
             (isLoading (ui w))) /\
  (okUnreadable r ->
     ui (step w (Reply id r)) =
     assign (say error "Error fetching mining status.") (ui w)) /\
  timers (step w (Reply id r)) = timers w /\
  sent (step w (Reply id r)) = sent w.
Proof.
  intros R M H. pose proof (inFlight_status w id R H) as A.
  split; [|split; [|split]].
  - intros d Hd. apply status_reply_state; assumption.
  - intros (res & -> & Hok & Hb). rewrite (reply_ui w id _ _ M A).
    destruct res as [o b]. simpl in Hok, Hb. subst. reflexivity.
  - apply (reply_timers w id r _ A).
    destruct r as [|[[] [d|]]]; reflexivity.
  - rewrite (reply_sent w id r _ A).
    destruct r as [|[[] [d|]]]; apply app_nil_r.
Qed.

Lemma poll_success_overwrites_witness :
  let d := {| Data.progress := 250; Data.hashRate := 7;
              Data.totalMined := - (3 # 1); Data.message := None |} in
  ui (step (run [ClickStart; Reply 1 (okReply emptyData); Tick 1]) (Reply 2 (okReply d))) =
  mkState true 250 7 (- (3 # 1)) [] (Some {| type := success; text := Js.lit "Mining started." |})
          false.
Proof.
  cbv zeta.
  refine (eq_trans (proj1 (poll_success_overwrites
            (run [ClickStart; Reply 1 (okReply emptyData); Tick 1]) 2%positive _
            (reachable_run _) _ _)
            {| Data.progress := 250; Data.hashRate := 7;
               Data.totalMined := - (3 # 1); Data.message := None |} _) _).
  - vm_compute; reflexivity.
  - vm_compute. eexists _, _. split; reflexivity.
  - eexists. repeat split; reflexivity.
  - vm_compute; reflexivity.
Defined.

(** ** Replies in any order *)

Lemma take_other id1 id2 l x rest y rest2 :
  take id1 l = Some (x, rest) -> id2 <> id1 ->
  take id2 l = Some (y, rest2) ->
  exists rest2', take id2 rest = Some (y, rest2').
Proof.
  revert x rest y rest2.
  induction l as [|z l IH]; simpl; intros x rest y rest2 H1 Hne H2; [discriminate|].
  destruct (Pos.eqb (rid z) id1) eqn:E1.
  - inversion H1; subst.
    destruct (Pos.eqb (rid x) id2) eqn:E2.
    + apply Pos.eqb_eq in E1, E2. congruence.
    + destruct (take id2 rest) as [[y' r']|]; [|discriminate].
      inversion H2; subst. eauto.
  - destruct (take id1 l) as [[x' r1]|] eqn:K1; [|discriminate].
    inversion H1; subst. simpl.
    destruct (Pos.eqb (rid z) id2) eqn:E2.
    + inversion H2; subst. eauto.
    + destruct (take id2 l) as [[y' r2]|] eqn:K2; [|discriminate].
      inversion H2; subst.
      destruct (IH _ _ _ _ eq_refl Hne eq_refl) as [r2' ->]. eauto.
Qed.

(** A reply leaves the other requests in flight. *)
Lemma inFlight_after_reply w id1 r id2 req1 req2 :
  reachable w -> inFlight w id1 req1 -> inFlight w id2 req2 -> id2 <> id1 ->
  inFlight (step w (Reply id1 r)) id2 req2.
Proof.
  intros R (x & rest & K1 & _) (y & rest2 & K2 & Hy) Hne.
  destruct (reply_effect w id1 r x rest R K1) as (s' & _ & _ & _ & Hp & _).
  destruct (take_other _ _ _ _ _ _ _ K1 Hne K2) as [rest2' K].
  exists y, rest2'. rewrite Hp. auto.
Qed.

Lemma inFlight_unique w id req1 req2 :
  inFlight w id req1 -> inFlight w id req2 -> req1 = req2.
Proof.
  intros (x & rest & K1 & <-) (y & rest2 & K2 & <-).
  rewrite K1 in K2. now inversion K2.
Qed.

(** X3.  Status replies are applied as they arrive, whatever the order the
    queries were sent in: with two queries in flight, the numeric cells end
    up with the values of whichever reply lands last. *)
Theorem last_status_reply_wins (w : World) (id1 id2 : positive) (r1 r2 : FetchResult)
    (d1 d2 : Data.t) :
  reachable w -> mounted w = true ->
  inFlight w id1 statusRequest -> inFlight w id2 statusRequest -> id1 <> id2 ->
  okWithBody r1 d1 -> okWithBody r2 d2 ->
  (progress (ui (step (step w (Reply id1 r1)) (Reply id2 r2))) = Data.progress d2 /\
   hashRate (ui (step (step w (Reply id1 r1)) (Reply id2 r2))) = Data.hashRate d2 /\
   totalMined (ui (step (step w (Reply id1 r1)) (Reply id2 r2))) = Data.totalMined d2) /\
  (progress (ui (step (step w (Reply id2 r2)) (Reply id1 r1))) = Data.progress d1 /\
   hashRate (ui (step (step w (Reply id2 r2)) (Reply id1 r1))) = Data.hashRate d1 /\
   totalMined (ui (step (step w (Reply id2 r2)) (Reply id1 r1))) = Data.totalMined d1).
Proof.
  intros R M H1 H2 Hne O1 O2.
  assert (Second : forall ida idb ra rb db,
            inFlight w ida statusRequest -> inFlight w idb statusRequest ->
            idb <> ida -> okWithBody rb db ->
            ui (step (step w (Reply ida ra)) (Reply idb rb)) =
            mkState (isMining (ui (step w (Reply ida ra)))) (Data.progress db)
                    (Data.hashRate db) (Data.totalMined db)
                    (customWallet (ui (step w (Reply ida ra))))
                    (message (ui (step w (Reply ida ra))))
                    (isLoading (ui (step w (Reply ida ra))))).
  { intros ida idb ra rb db Ha Hb Hab Ob.
    apply status_reply_state.
    - apply reach_step, R.
    - rewrite reply_mounted. exact M.
    - apply (inFlight_after_reply w ida ra idb _ _ R Ha Hb Hab).
    - exact Ob. }
  split.
  - rewrite (Second id1 id2 r1 r2 d2 H1 H2 (fun E => Hne (eq_sym E)) O2). auto.
  - rewrite (Second id2 id1 r2 r1 d1 H2 H1 Hne O1). auto.
Qed.

Lemma last_status_reply_wins_witness :
  let w := run [ClickStart; Reply 1 (okReply emptyData); Tick 1; Tick 1] in
  totalMined (ui (step (step w (Reply 2 (okReply emptyData))) (Reply 3 (okReply statusData))))
    = Data.totalMined statusData /\
  totalMined (ui (step (step w (Reply 3 (okReply statusData))) (Reply 2 (okReply emptyData))))
    = Data.totalMined emptyData.
Proof.
  cbv zeta.
  assert (H := last_status_reply_wins
                 (run [ClickStart; Reply 1 (okReply emptyData); Tick 1; Tick 1])
                 2%positive 3%positive (okReply emptyData) (okReply statusData)
                 emptyData statusData (reachable_run _)).
  assert (M : mounted (run [ClickStart; Reply 1 (okReply emptyData); Tick 1; Tick 1]) = true)
    by (vm_compute; reflexivity).
  assert (F2 : inFlight (run [ClickStart; Reply 1 (okReply emptyData); Tick 1; Tick 1])
                 2 statusRequest).
  { vm_compute. eexists _, _. split; reflexivity. }
  assert (F3 : inFlight (run [ClickStart; Reply 1 (okReply emptyData); Tick 1; Tick 1])
                 3 statusRequest).
  { vm_compute. eexists _, _. split; reflexivity. }
  assert (Hne : 2%positive <> 3%positive) by discriminate.
  assert (O1 : okWithBody (okReply emptyData) emptyData).
  { eexists. repeat split; reflexivity. }
  assert (O2 : okWithBody (okReply statusData) statusData).
  { eexists. repeat split; reflexivity. }
  destruct (H M F2 F3 Hne O1 O2) as [(_ & _ & Ha) (_ & _ & Hb)].
  split; assumption.
Defined.

(** ** Deposits and polls *)

Lemma deposit_reply_state w id a r d :
  reachable w -> mounted w = true -> inFlight w id (depositRequest a) ->
  okWithBody r d ->
  ui (step w (Reply id r)) =
  mkState (isMining (ui w)) (progress (ui w)) (hashRate (ui w)) 0
          (customWallet (ui w))
          (Some {| type := success;
                   text := Js.orElse (Data.message d) (Js.lit "Deposit successful.") |})
          false.
Proof.
  intros R M H (res & -> & Hok & Hb).
  destruct (inFlight_deposit w id a R H) as [V A].
  rewrite (reply_ui w id _ _ M A).
  unfold deposit. simpl kont. rewrite V. simpl.
  destruct res as [o b]. simpl in Hok, Hb. subst. reflexivity.
Qed.

(** X4.  After an acknowledged deposit the Deposit button is disabled, since
    the total is 0: a click on it changes nothing and sends nothing. *)
Theorem deposit_success_disables_button (w : World) (id : positive) (a : jsString)
    (r : FetchResult) (d : Data.t) :
  reachable w -> mounted w = true -> inFlight w id (depositRequest a) ->
  okWithBody r d ->
  depositDisabled (ui (step w (Reply id r))) = true /\
  step (step w (Reply id r)) ClickDeposit = step w (Reply id r).
Proof.
  intros R M H O.
  assert (Hd : depositDisabled (ui (step w (Reply id r))) = true).
  { rewrite (deposit_reply_state w id a r d R M H O). reflexivity. }
  split; [exact Hd|].
  remember (step w (Reply id r)) as w' eqn:E. simpl. rewrite Hd. simpl.
  now rewrite andb_false_r.
Qed.

Lemma deposit_success_disables_button_witness :
  let w := run (minedSession ++ [ChangeWallet payoutAddress; ClickDeposit]) in
  step (step w (Reply 3 (okReply emptyData))) ClickDeposit
  = step w (Reply 3 (okReply emptyData)).
Proof.
  cbv zeta.
  refine (proj2 (deposit_success_disables_button
            (run (minedSession ++ [ChangeWallet payoutAddress; ClickDeposit]))
            3%positive payoutAddress (okReply emptyData) emptyData
            (reachable_run _) _ _ _)).
  - vm_compute; reflexivity.
  - vm_compute. eexists _, _. split; reflexivity.
  - eexists. repeat split; reflexivity.
Defined.

(** X5.  The reset of the total is local and is not protected against a
    status query already in flight: when the reply to that query lands
    after the deposit was acknowledged, [totalMined] takes the reported
    value again, and if it is positive the Deposit button is enabled
    again. *)
Theorem stale_status_reply_undoes_reset (w : World) (idD idP : positive) (a : jsString)
    (rD rP : FetchResult) (dD dP : Data.t) :
  reachable w -> mounted w = true ->
  inFlight w idD (depositRequest a) -> inFlight w idP statusRequest ->
  okWithBody rD dD -> okWithBody rP dP ->
  totalMined (ui (step w (Reply idD rD))) = 0%Q /\
  totalMined (ui (step (step w (Reply idD rD)) (Reply idP rP))) = Data.totalMined dP /\
  ((0 < Data.totalMined dP)%Q ->
   depositDisabled (ui (step (step w (Reply idD rD)) (Reply idP rP))) = false).
Proof.
  intros R M HD HP OD OP.
  assert (Hne : idP <> idD).
  { intros ->. pose proof (inFlight_unique w idD _ _ HD HP) as E. discriminate E. }
  pose proof (deposit_reply_state w idD a rD dD R M HD OD) as H1.
  assert (H2 := status_reply_state (step w (Reply idD rD)) idP rP dP
                  (reach_step w _ R)
                  (eq_trans (reply_mounted w idD rD) M)
                  (inFlight_after_reply w idD rD idP _ _ R HD HP Hne) OP).
  rewrite H2, H1. simpl. repeat split.
  intros Hpos. unfold depositDisabled. simpl.
  destruct (Qle_bool (Data.totalMined dP) 0) eqn:E; [|reflexivity].
  apply Qle_bool_iff in E. exfalso. apply (Qlt_not_le _ _ Hpos E).
Qed.

Lemma stale_status_reply_undoes_reset_witness :
  let w := run (minedSession ++ [ChangeWallet payoutAddress; Tick 1; ClickDeposit]) in
  totalMined (ui (step w (Reply 4 (okReply emptyData)))) = 0%Q /\
  totalMined (ui (step (step w (Reply 4 (okReply emptyData))) (Reply 3 (okReply statusData))))
    = Data.totalMined statusData.
Proof.
  cbv zeta.
  assert (H := stale_status_reply_undoes_reset
                 (run (minedSession ++ [ChangeWallet payoutAddress; Tick 1; ClickDeposit]))
                 4%positive 3%positive payoutAddress (okReply emptyData) (okReply statusData)
                 emptyData statusData (reachable_run _)).
  assert (M : mounted (run (minedSession ++
                [ChangeWallet payoutAddress; Tick 1; ClickDeposit])) = true)
    by (vm_compute; reflexivity).
  assert (FD : inFlight (run (minedSession ++
                 [ChangeWallet payoutAddress; Tick 1; ClickDeposit])) 4
                 (depositRequest payoutAddress)).
  { vm_compute. eexists _, _. split; reflexivity. }
  assert (FP : inFlight (run (minedSession ++
                 [ChangeWallet payoutAddress; Tick 1; ClickDeposit])) 3 statusRequest).
  { vm_compute. eexists _, _. split; reflexivity. }
  assert (O1 : okWithBody (okReply emptyData) emptyData).
  { eexists. repeat split; reflexivity. }
  assert (O2 : okWithBody (okReply statusData) statusData).
  { eexists. repeat split; reflexivity. }
  destruct (H M FD FP O1 O2) as (Ha & Hb & _).
  split; assumption.
Defined.

(** ** What each event can change *)

Lemma sameData_refl s : sameData s s.
Proof. repeat split. Qed.

Lemma launch_sameData p w :
  (forall s, sameData s (fst (runSync p s))) -> sameData (ui w) (ui (launch p w)).
Proof.
  intros H. destruct (launch_frame p w) as (_ & -> & _).
  destruct (mounted w); [apply H | apply sameData_refl].
Qed.

(** Every event other than typing and replies leaves the session flag, the
    three numbers and the address alone. *)
Lemma step_sameData w e :
  reachable w ->
  (forall v, e <> ChangeWallet v) -> (forall id r, e <> Reply id r) ->
  sameData (ui w) (ui (step w e)).
Proof.
  intros R NoType NoReply. destruct e; simpl.
  - destruct (_ && _); [|apply sameData_refl].
    apply launch_sameData. intros s. repeat split.
  - destruct (_ && _); [|apply sameData_refl].
    apply launch_sameData. intros s. repeat split.
  - destruct (_ && _); [|apply sameData_refl].
    apply launch_sameData. intros s.
    destruct (walletAddressRegex_test (customWallet (ui w))) eqn:V.
    + rewrite (runSync_deposit_valid _ _ V). repeat split.
    + rewrite (runSync_deposit_malformed _ _ V). repeat split.
  - exfalso. apply (NoType v). reflexivity.
  - destruct (find _ _) as [t|] eqn:F; [|apply sameData_refl].
    destruct (TimerInv_find _ _ _ (reachable_TimerInv w R) F) as (_ & _ & h' & ->).
    apply launch_sameData. intros s. repeat split.
  - exfalso. apply (NoReply id r). reflexivity.
  - destruct (mounted w); [|apply sameData_refl].
    unfold unmount, runCleanup. destruct (cleanupFn w) as [[h|]|]; apply sameData_refl.
Qed.

Lemma step_type_ui w v :
  ui (step w (ChangeWallet v)) =
  if mounted w && negb (isLoading (ui w)) then assign (setCustomWallet v) (ui w)
  else ui w.
Proof.
  unfold step, inputDisabled.
  destruct (mounted w && negb (isLoading (ui w))) eqn:G; [|reflexivity].
  destruct (launch_frame (call (setCustomWallet v)) w) as (_ & -> & _).
  apply andb_prop in G as [-> _]. reflexivity.
Qed.

(** The state after a reply, in terms of the request it answers. *)
Lemma step_reply_ui w id r :
  reachable w -> ui (step w (Reply id r)) <> ui w ->
  exists x rest s',
    take id (pending w) = Some (x, rest) /\ In x (pending w) /\
    sentBy (request x) (resume x) /\ mounted w = true /\
    runSync (resume x r) (ui w) = (s', Finished) /\
    ui (step w (Reply id r)) = s'.
Proof.
  intros R Hchg.
  destruct (take id (pending w)) as [[x rest]|] eqn:K.
  - assert (H : inFlight w id (request x)) by (exists x, rest; auto).
    destruct (inFlight_entry w id _ R H) as (x' & rest' & K' & _ & Hin & S).
    rewrite K in K'. inversion K'; subst x' rest'.
    destruct (reply_effect w id r x rest R K) as (s' & Hrun & _ & Hu & _).
    destruct (mounted w) eqn:M; [|congruence].
    exists x, rest, s'. auto 10.
  - exfalso. apply Hchg. simpl. rewrite K. reflexivity.
Qed.

(** X6.  [isMining] changes only when an ok reply to a start or a stop
    request arrives: to true on a start acknowledged while not mining, to
    false on a stop acknowledged while mining.  No click, tick, typing,
    failed reply or unmounting flips it. *)
Theorem session_flag_changes_on_ack_only (w : World) (e : Event) :
  reachable w -> isMining (ui (step w e)) <> isMining (ui w) ->
  exists id r,
    e = Reply id r /\ okResponse r /\
    ((inFlight w id startRequest /\ isMining (ui w) = false /\
      isMining (ui (step w e)) = true) \/
     (inFlight w id stopRequest /\ isMining (ui w) = true /\
      isMining (ui (step w e)) = false)).
Proof.
  intros R Hchg.
  destruct e as [| | |v|h|id r|];
    try (exfalso; apply Hchg;
         apply (step_sameData w _ R); intros; discriminate).
  - exfalso. apply Hchg. rewrite step_type_ui.
    destruct (_ && _); reflexivity.
  - assert (Hui : ui (step w (Reply id r)) <> ui w) by congruence.
    destruct (step_reply_ui w id r R Hui) as (x & rest & s' & K & Hin & S & M & Hrun & Hu).
    destruct (reply_summary _ _ S r (ui w)) as (s'' & Hrun' & _ & _ & Hmi & _).
    rewrite Hrun in Hrun'. inversion Hrun'; subst s''. clear Hrun'.
    rewrite Hu in *.
    pose proof (proj2 (reachable_ScreenInv w R) M x Hin) as F.
    exists id, r. split; [reflexivity|].
    unfold sentBy in S.
    destruct (action (body (request x))) eqn:E; try congruence.
    + destruct S as [Hreq _]. destruct (replyOk r) eqn:O; [|congruence].
      split; [apply okResponse_replyOk, O|]. left.
      split; [exists x, rest; auto | auto].
    + destruct S as [Hreq _]. destruct (replyOk r) eqn:O; [|congruence].
      split; [apply okResponse_replyOk, O|]. right.
      split; [exists x, rest; auto | auto].
Qed.

Lemma session_flag_changes_on_ack_only_witness :
  exists id r,
    Reply 1 (okReply emptyData) = Reply id r /\ okResponse r /\
    ((inFlight (run [ClickStart]) id startRequest /\
      isMining (ui (run [ClickStart])) = false /\
      isMining (ui (step (run [ClickStart]) (Reply 1 (okReply emptyData)))) = true) \/
     (inFlight (run [ClickStart]) id stopRequest /\
      isMining (ui (run [ClickStart])) = true /\
      isMining (ui (step (run [ClickStart]) (Reply 1 (okReply emptyData)))) = false)).
Proof.
  refine (session_flag_changes_on_ack_only (run [ClickStart]) (Reply 1 (okReply emptyData))
            (reachable_run _) _).
  vm_compute. discriminate.
Defined.

(** X7.  [totalMined] changes only when an ok reply with a readable body
    arrives: to the reported total on a status reply, to 0 on a deposit
    reply.  In particular the total is never reset before the deposit is
    acknowledged. *)
Theorem total_changes_on_readable_ack_only (w : World) (e : Event) :
  reachable w -> totalMined (ui (step w e)) <> totalMined (ui w) ->
  exists id r d,
    e = Reply id r /\ okWithBody r d /\
    ((inFlight w id statusRequest /\
      totalMined (ui (step w e)) = Data.totalMined d) \/
     (inFlight w id (depositRequest (customWallet (ui w))) /\
      totalMined (ui (step w e)) = 0%Q)).
Proof.
  intros R Hchg.
  destruct e as [| | |v|h|id r|];
    try (exfalso; apply Hchg;
         apply (step_sameData w _ R); intros; discriminate).
  - exfalso. apply Hchg. rewrite step_type_ui.
    destruct (_ && _); reflexivity.
  - assert (Hui : ui (step w (Reply id r)) <> ui w) by congruence.
    destruct (step_reply_ui w id r R Hui) as (x & rest & s' & K & Hin & S & M & Hrun & Hu).
    destruct (reply_summary _ _ S r (ui w)) as (s'' & Hrun' & _ & _ & _ & Htm & _).
    rewrite Hrun in Hrun'. inversion Hrun'; subst s''. clear Hrun'.
    rewrite Hu in *.
    pose proof (proj2 (reachable_ScreenInv w R) M x Hin) as F.
    unfold sentBy in S.
    destruct (action (body (request x))) eqn:E; try congruence.
    + destruct S as [Hreq _]. destruct (replyData r) as [d|] eqn:D; [|congruence].
      exists id, r, d. split; [reflexivity|].
      split; [apply okWithBody_replyData, D|]. left.
      split; [exists x, rest; auto | exact Htm].
    + destruct S as (a & V & Hreq & _).
      destruct (replyData r) as [d|] eqn:D; [|congruence].
      exists id, r, d. split; [reflexivity|].
      split; [apply okWithBody_replyData, D|]. right.
      split; [|exact Htm]. exists x, rest. split; [exact K|].
      rewrite Hreq in F |- *. simpl in F. inversion F. reflexivity.
Qed.

Lemma total_changes_on_readable_ack_only_witness :
  exists id r d,
    Reply 2 (okReply statusData) = Reply id r /\ okWithBody r d /\
    ((inFlight (run [ClickStart; Reply 1 (okReply emptyData); Tick 1]) id statusRequest /\
      totalMined (ui (step (run [ClickStart; Reply 1 (okReply emptyData); Tick 1])
                           (Reply 2 (okReply statusData)))) = Data.totalMined d) \/
     (inFlight (run [ClickStart; Reply 1 (okReply emptyData); Tick 1]) id
        (depositRequest (customWallet (ui (run [ClickStart; Reply 1 (okReply emptyData); Tick 1])))) /\
      totalMined (ui (step (run [ClickStart; Reply 1 (okReply emptyData); Tick 1])
                           (Reply 2 (okReply statusData)))) = 0%Q)).
Proof.
  refine (total_changes_on_readable_ack_only
            (run [ClickStart; Reply 1 (okReply emptyData); Tick 1])
            (Reply 2 (okReply statusData)) (reachable_run _) _).
  vm_compute. discriminate.
Defined.

(** X8.  The address field changes only by typing while no request is in
    flight; no handler and no reply writes it.  So the address of a deposit
    in flight is the one still shown in the field, and it is well formed. *)
Theorem address_changes_by_typing_only (w : World) :
  reachable w ->
  (forall e, customWallet (ui (step w e)) <> customWallet (ui w) ->
     exists v, e = ChangeWallet v /\ mounted w = true /\ isLoading (ui w) = false /\
               customWallet (ui (step w e)) = v) /\
  (forall id a, mounted w = true -> inFlight w id (depositRequest a) ->
     customWallet (ui w) = a /\ wellFormedAddress a /\ isLoading (ui w) = true).
Proof.
  intros R. split.
  - intros e Hchg.
    destruct e as [| | |v|h|id r|];
      try (exfalso; apply Hchg;
           apply (step_sameData w _ R); intros; discriminate).
    + exists v. rewrite step_type_ui in Hchg |- *.
      destruct (mounted w) eqn:M; simpl in *; [|congruence].
      destruct (isLoading (ui w)) eqn:L; simpl in *; [congruence|]. auto.
    + exfalso. apply Hchg.
      destruct (take id (pending w)) as [[x rest]|] eqn:K.
      * assert (H : inFlight w id (request x)) by (exists x, rest; auto).
        destruct (inFlight_entry w id _ R H) as (x' & rest' & K' & _ & _ & S).
        rewrite K in K'. inversion K'; subst x' rest'.
        destruct (reply_effect w id r x rest R K) as (s' & Hrun & _ & -> & _).
        destruct (reply_summary _ _ S r (ui w)) as (s'' & Hrun' & Hcw & _).
        rewrite Hrun in Hrun'. inversion Hrun'; subst s''.
        destruct (mounted w); [exact Hcw | reflexivity].
      * simpl. rewrite K. reflexivity.
  - intros id a M H.
    destruct (inFlight_entry w id _ R H) as (x & rest & K & Hreq & Hin & S).
    pose proof (proj2 (reachable_ScreenInv w R) M x Hin) as F.
    rewrite Hreq in F. simpl in F. inversion F as [E].
    split; [reflexivity|]. split.
    + apply walletAddressRegex_test_spec.
      destruct S as (a' & V & Ea & _). inversion Ea. congruence.
    + apply (in_flight_loading w R M). exists x. split; [exact Hin|].
      rewrite Hreq. reflexivity.
Qed.

Lemma address_changes_by_typing_only_witness :
  customWallet (ui (run (minedSession ++ [ChangeWallet payoutAddress; ClickDeposit])))
  = payoutAddress.
Proof.
  refine (proj1 (proj2 (address_changes_by_typing_only
            (run (minedSession ++ [ChangeWallet payoutAddress; ClickDeposit]))
            (reachable_run _)) 3%positive payoutAddress _ _)).
  - vm_compute; reflexivity.
  - vm_compute. eexists _, _. split; reflexivity.
Defined.

(** ** The loading flag and the buttons *)

Lemma actionInFlight_filter w :
  actionInFlight w <-> filter userEntry (pending w) <> [].
Proof.
  split.
  - intros (x & Hin & U) E.
    assert (H : In x (filter userEntry (pending w))) by (apply filter_In; auto).
    rewrite E in H. destruct H.
  - intros H. destruct (filter userEntry (pending w)) as [|x l] eqn:E; [congruence|].
    assert (Hx : In x (filter userEntry (pending w))) by (rewrite E; left; reflexivity).
    apply filter_In in Hx as [Hin U]. exists x. auto.
Qed.

(** X9.  At most one start, stop or deposit request is in flight at any
    time, and while the component is mounted [isLoading] is true exactly
    when one is. *)
Theorem loading_flag_is_exact (w : World) :
  reachable w ->
  List.length (filter userEntry (pending w)) <= 1 /\
  (mounted w = true -> (isLoading (ui w) = true <-> actionInFlight w)).
Proof.
  intros R. destruct (reachable_ScreenInv w R) as [[L1 L2] _].
  split; [exact L1|]. intros M. specialize (L2 M).
  rewrite actionInFlight_filter. split.
  - intros Hl E. rewrite Hl, E in L2. discriminate.
  - intros H. destruct (isLoading (ui w)); [reflexivity|].
    apply length_zero_nil in L2. contradiction.
Qed.

Lemma loading_flag_is_exact_witness :
  List.length (filter userEntry (pending (run (minedSession ++ [Tick 1; Tick 1; ClickStop]))))
  <= 1.
Proof.
  exact (proj1 (loading_flag_is_exact (run (minedSession ++ [Tick 1; Tick 1; ClickStop]))
                  (reachable_run _))).
Defined.

(** X10.  In a mounted component with no user action in flight, exactly one
    of Start and Stop is enabled (Start when not mining, Stop when mining);
    while a user action is in flight, Start, Stop, Deposit and the address
    field are all disabled. *)
Theorem controls_follow_state (w : World) :
  reachable w -> mounted w = true ->
  (~ actionInFlight w ->
   startDisabled (ui w) = isMining (ui w) /\
   stopDisabled (ui w) = negb (isMining (ui w)) /\
   inputDisabled (ui w) = false) /\
  (actionInFlight w ->
   startDisabled (ui w) = true /\ stopDisabled (ui w) = true /\
   depositDisabled (ui w) = true /\ inputDisabled (ui w) = true).
Proof.
  intros R M.
  destruct (reachable_ScreenInv w R) as [[_ L2] _]. specialize (L2 M).
  unfold startDisabled, stopDisabled, depositDisabled, inputDisabled.
  split.
  - intros H. rewrite actionInFlight_filter in H.
    destruct (isLoading (ui w)).
    + exfalso. apply H. intros E. rewrite E in L2. discriminate.
    + now rewrite !orb_false_r.
  - intros H. rewrite (in_flight_loading w R M H).
    now rewrite !orb_true_r.
Qed.

Lemma controls_follow_state_witness :
  startDisabled (ui (run minedSession)) = isMining (ui (run minedSession)) /\
  stopDisabled (ui (run minedSession)) = negb (isMining (ui (run minedSession))) /\
  inputDisabled (ui (run minedSession)) = false.
Proof.
  refine (proj1 (controls_follow_state (run minedSession) (reachable_run _) _) _).
  - vm_compute; reflexivity.
  - intros (x & Hin & _). vm_compute in Hin. exact Hin.
Defined.

(** ** After unmounting *)

Lemma step_unmounted w e :
  reachable w -> mounted w = false ->
  mounted (step w e) = false /\ sent (step w e) = sent w /\
  ui (step w e) = ui w /\ timers (step w e) = [].
Proof.
  intros R M.
  assert (Ht : timers w = []).
  { pose proof (reachable_TimerInv w R) as T. unfold TimerInv in T.
    rewrite M in T. apply T. }
  destruct e; simpl; rewrite ?M; simpl; auto.
  - rewrite Ht. simpl. auto.
  - destruct (take id (pending w)) as [[x rest]|] eqn:K; auto.
    destruct (reply_effect w id r x rest R K) as (s' & _ & Hm & Hu & _ & Hs).
    simpl in Hm, Hu, Hs. rewrite K in Hm, Hu, Hs. rewrite M in Hu.
    repeat split; auto; try congruence.
    pose proof (reachable_TimerInv _ (reach_step w (Reply id r) R)) as T.
    unfold TimerInv in T. simpl in T. rewrite K in T. rewrite Hm, M in T. apply T.
Qed.

(** X11.  Once the component is unmounted nothing more is sent and nothing
    changes on screen, whatever happens afterwards: clicks and ticks are
    dead, and the replies still in flight are consumed without effect. *)
Theorem unmounted_component_is_silent (w : World) (es : list Event) :
  reachable w -> mounted w = false ->
  sent (fold_left step es w) = sent w /\
  ui (fold_left step es w) = ui w /\
  timers (fold_left step es w) = [].
Proof.
  revert w. induction es as [|e es IH]; intros w R M; simpl.
  - repeat split.
    pose proof (reachable_TimerInv w R) as T. unfold TimerInv in T.
    rewrite M in T. apply T.
  - destruct (step_unmounted w e R M) as (M' & Hs & Hu & _).
    destruct (IH (step w e) (reach_step w e R) M') as (H1 & H2 & H3).
    rewrite H1, H2, Hs, Hu. auto.
Qed.

Lemma unmounted_component_is_silent_witness :
  sent (fold_left step [Reply 3 (okReply statusData); Tick 1; ClickStart]
          (run (minedSession ++ [Tick 1; Unmount])))
  = sent (run (minedSession ++ [Tick 1; Unmount])).
Proof.
  refine (proj1 (unmounted_component_is_silent (run (minedSession ++ [Tick 1; Unmount]))
                   [Reply 3 (okReply statusData); Tick 1; ClickStart]
                   (reachable_run _) _)).
  vm_compute; reflexivity.
Defined.

(** ** Failures *)



Lemma failed_reply_state w id r p :
  mounted w = true -> awaiting w id p -> (p = startMining \/ p = stopMining) ->
  failedRequest r ->
  exists t, ui (step w (Reply id r)) =
            assign (setIsLoading false)
              (assign (setMessage (Some {| type := error; text := t |})) (ui w)).
Proof.
  intros M A Hp F. rewrite (reply_ui w id r _ M A).
  destruct Hp as [->| ->]; destruct F as [->|(res & -> & Hok)];
    try (destruct res as [o b]; simpl in Hok; subst o);
    eexists; reflexivity.
Qed.

Lemma click_launches w p req :
  reachable w -> mounted w = true ->
  (forall s, snd (runSync p s) = Suspended req (kont p)) ->
  sent (launch p w) = sent w ++ [req] /\ inFlight (launch p w) (nextRequest w) req.
Proof.
  intros R M Hp.
  destruct (launch_frame p w) as (_ & _ & Hpend & Hsent).
  rewrite Hp in Hpend, Hsent. simpl in Hpend, Hsent. split; [exact Hsent|].
  unfold inFlight. rewrite Hpend. eexists _, _. split.
  - apply take_fresh; [apply (reachable_FreshInv w R) | reflexivity].
  - reflexivity.
Qed.

(** X13.  A failed action can be retried at once: after the failure of a
    start (stop) request the Start (Stop) button is enabled again and a
    click on it sends the request anew; after the failure of a deposit the
    same holds for Deposit, with the same address, as long as the total at
    that moment is positive. *)
Theorem failed_action_can_be_retried (w : World) (id : positive) (r : FetchResult) :
  reachable w -> mounted w = true -> failedRequest r ->
  (inFlight w id startRequest ->
     startDisabled (ui (step w (Reply id r))) = false /\
     sent (step (step w (Reply id r)) ClickStart) =
       sent (step w (Reply id r)) ++ [startRequest]) /\
  (inFlight w id stopRequest ->
     stopDisabled (ui (step w (Reply id r))) = false /\
     sent (step (step w (Reply id r)) ClickStop) =
       sent (step w (Reply id r)) ++ [stopRequest]) /\
  (forall a, inFlight w id (depositRequest a) -> (0 < totalMined (ui w))%Q ->
     depositDisabled (ui (step w (Reply id r))) = false /\
     sent (step (step w (Reply id r)) ClickDeposit) =
       sent (step w (Reply id r)) ++ [depositRequest a]).
Proof.
  intros R M F.
  pose proof (reach_step w (Reply id r) R) as R'.
  pose proof (eq_trans (reply_mounted w id r) M) as M'.
  split; [|split].
  - intros H. destruct (inFlight_entry w id _ R H) as (x & rest & K & Hreq & Hin & _).
    pose proof (proj2 (reachable_ScreenInv w R) M x Hin) as Fl.
    rewrite Hreq in Fl. simpl in Fl.
    destruct (failed_reply_state w id r startMining M (inFlight_start w id R H)
                (or_introl eq_refl) F) as [t Hui].
    assert (Hd : startDisabled (ui (step w (Reply id r))) = false).
    { rewrite Hui. unfold startDisabled. simpl. now rewrite Fl. }
    split; [exact Hd|].
    remember (step w (Reply id r)) as w' eqn:E. simpl. rewrite M', Hd. simpl.
    apply (click_launches w' startMining startRequest R' M'). reflexivity.
  - intros H. destruct (inFlight_entry w id _ R H) as (x & rest & K & Hreq & Hin & _).
    pose proof (proj2 (reachable_ScreenInv w R) M x Hin) as Fl.
    rewrite Hreq in Fl. simpl in Fl.
    destruct (failed_reply_state w id r stopMining M (inFlight_stop w id R H)
                (or_intror eq_refl) F) as [t Hui].
    assert (Hd : stopDisabled (ui (step w (Reply id r))) = false).
    { rewrite Hui. unfold stopDisabled. simpl. now rewrite Fl. }
    split; [exact Hd|].
    remember (step w (Reply id r)) as w' eqn:E. simpl. rewrite M', Hd. simpl.
    apply (click_launches w' stopMining stopRequest R' M'). reflexivity.
  - intros a H Hpos.
    destruct (inFlight_entry w id _ R H) as (x & rest & K & Hreq & Hin & _).
    pose proof (proj2 (reachable_ScreenInv w R) M x Hin) as Fl.
    rewrite Hreq in Fl. simpl in Fl.
    assert (Ea : customWallet (ui w) = a) by (injection Fl; auto).
    destruct (inFlight_deposit w id a R H) as [V A].
    assert (Hui : exists t, ui (step w (Reply id r)) =
              assign (setIsLoading false)
                (assign (setMessage (Some {| type := error; text := t |})) (ui w))).
    { rewrite (reply_ui w id r _ M A). unfold deposit. simpl kont. rewrite V.
      destruct F as [->|(res & -> & Hok)].
      - eexists. reflexivity.
      - destruct res as [o [d|]]; simpl in Hok; subst o; eexists; reflexivity. }
    destruct Hui as [t Hui].
    assert (Hd : depositDisabled (ui (step w (Reply id r))) = false).
    { rewrite Hui. unfold depositDisabled. simpl.
      destruct (Qle_bool (totalMined (ui w)) 0) eqn:Q; [|reflexivity].
      apply Qle_bool_iff in Q. exfalso. apply (Qlt_not_le _ _ Hpos Q). }
    assert (Hw : customWallet (ui (step w (Reply id r))) = a).
    { rewrite Hui. simpl. congruence. }
    split; [exact Hd|].
    remember (step w (Reply id r)) as w' eqn:E. simpl. rewrite M', Hd, Hw. simpl.
    apply (click_launches w' (deposit a) (depositRequest a) R' M').
    intros s. rewrite (runSync_deposit_valid _ _ V). reflexivity.
Qed.

Lemma failed_action_can_be_retried_witness :
  sent (step (step (run [ClickStart]) (Reply 1 Rejected)) ClickStart) =
  sent (step (run [ClickStart]) (Reply 1 Rejected)) ++ [startRequest].
Proof.
  refine (proj2 (proj1 (failed_action_can_be_retried (run [ClickStart]) 1%positive Rejected
                          (reachable_run _) _ _) _)).
  - vm_compute; reflexivity.
  - left. reflexivity.
  - vm_compute. eexists _, _. split; reflexivity.
Defined.

(** ** Polling *)

(** X14.  A tick either does nothing (no such timer is live) or it is the
    tick of the polling timer of a mounted, mining component; then it sends
    exactly one status query, which is in flight afterwards, and touches no
    state cell.  The loading flag plays no part: polling goes on while a
    user action is in flight. *)
Theorem tick_sends_one_status_query (w : World) (h : positive) :
  reachable w ->
  (step w (Tick h) = w \/
   (mounted w = true /\ isMining (ui w) = true /\ timers w = [pollTimer h])) /\
  (timers w = [pollTimer h] ->
   sent (step w (Tick h)) = sent w ++ [statusRequest] /\
   inFlight (step w (Tick h)) (nextRequest w) statusRequest /\
   ui (step w (Tick h)) = ui w /\
   timers (step w (Tick h)) = timers w).
Proof.
  intros R. pose proof (reachable_TimerInv w R) as T.
  assert (Live : timers w = [pollTimer h] ->
                 mounted w = true /\ isMining (ui w) = true).
  { intros Ht. unfold TimerInv in T. rewrite Ht in T.
    destruct (mounted w), (isMining (ui w)); auto;
      destruct T as [_ T]; discriminate T. }
  split.
  - destruct (find (fun t => Pos.eqb (handle t) h) (timers w)) as [t|] eqn:F.
    + right. destruct (TimerInv_find _ _ _ T F) as (M & Hm & h' & ->).
      repeat split; auto.
      unfold TimerInv in T. rewrite M, Hm in T. destruct T as (h0 & _ & Ht).
      rewrite Ht in F |- *. simpl in F.
      destruct (Pos.eqb h0 h) eqn:E; [|discriminate].
      apply Pos.eqb_eq in E. subst h0. reflexivity.
    + left. simpl. rewrite F. reflexivity.
  - intros Ht. destruct (Live Ht) as [M Hm].
    rewrite (step_tick w h M Ht). simpl. repeat split; auto.
    exists {| rid := nextRequest w; request := statusRequest; resume := kont pollTick |},
           (pending w).
    split; [|reflexivity].
    apply take_fresh; [apply (reachable_FreshInv w R) | reflexivity].
Qed.

Lemma tick_sends_one_status_query_witness :
  isLoading (ui (run (minedSession ++ [ClickStop]))) = true /\
  sent (step (run (minedSession ++ [ClickStop])) (Tick 1)) =
  sent (run (minedSession ++ [ClickStop])) ++ [statusRequest].
Proof.
  split; [vm_compute; reflexivity|].
  refine (proj1 (proj2 (tick_sends_one_status_query (run (minedSession ++ [ClickStop]))
                          1%positive (reachable_run _)) _)).
  vm_compute; reflexivity.
Defined.

(** ** Requests *)

(** X15.  Every request the component ever sends is a POST to
    ['/api/mining']; a start, stop or status request carries no wallet, and
    a deposit request carries an address that passed validation: 26 to 35
    characters, starting with [1] or [3], base58 only. *)
Theorem every_request_is_well_formed (w : World) :
  reachable w -> Forall wellFormedRequest (sent w).
Proof. intros R. apply (reachable_RequestsInv w R). Qed.

Lemma every_request_is_well_formed_witness :
  Forall wellFormedRequest
    (sent (run (minedSession ++ [ChangeWallet payoutAddress; ClickDeposit]))).
Proof.
  exact (every_request_is_well_formed _ (reachable_run _)).
Defined.

(** ** The alert *)

(** X16.  When the reply to a user action arrives an alert is always shown,
    and its variant tells the outcome: for start and stop it is the default
    variant exactly when the response is ok; for a deposit exactly when the
    response is ok and its body could be read; otherwise it is
    destructive. *)
Theorem alert_reports_outcome (w : World) (id : positive) (r : FetchResult) :
  reachable w -> mounted w = true ->
  (inFlight w id startRequest \/ inFlight w id stopRequest ->
   exists t, alert (ui (step w (Reply id r))) =
             Some (if replyOk r then "default"%string else "destructive"%string, t)) /\
  (forall a, inFlight w id (depositRequest a) ->
   exists t, alert (ui (step w (Reply id r))) =
             Some (match replyData r with
                   | Some _ => "default"%string
                   | None => "destructive"%string
                   end, t)).
Proof.
  intros R M. split.
  - intros [H|H].
    + rewrite (reply_ui w id r _ M (inFlight_start w id R H)).
      destruct r as [|[[] b]]; eexists; reflexivity.
    + rewrite (reply_ui w id r _ M (inFlight_stop w id R H)).
      destruct r as [|[[] b]]; eexists; reflexivity.
  - intros a H. destruct (inFlight_deposit w id a R H) as [V A].
    rewrite (reply_ui w id r _ M A). unfold deposit. simpl kont. rewrite V.
    destruct r as [|[[] [d|]]]; eexists; reflexivity.
Qed.

Lemma alert_reports_outcome_witness :
  exists t, alert (ui (step (run (minedSession ++ [ClickStop])) (Reply 3 Rejected))) =
            Some ("destructive"%string, t).
Proof.
  refine (proj1 (alert_reports_outcome (run (minedSession ++ [ClickStop])) 3%positive
                   Rejected (reachable_run _) _) _).
  - vm_compute; reflexivity.
  - right. vm_compute. eexists _, _. split; reflexivity.
Defined.

(** X17.  Starting an action takes the previous alert down: right after a
    click on an enabled Start or Stop button, or on an enabled Deposit
    button with an address that passes validation, no alert is shown and
    [isLoading] is true. *)
Theorem action_start_clears_alert (w : World) :
  reachable w -> mounted w = true ->
  (startDisabled (ui w) = false ->
   alert (ui (step w ClickStart)) = None /\ isLoading (ui (step w ClickStart)) = true) /\
  (stopDisabled (ui w) = false ->
   alert (ui (step w ClickStop)) = None /\ isLoading (ui (step w ClickStop)) = true) /\
  (depositDisabled (ui w) = false ->
   walletAddressRegex_test (customWallet (ui w)) = true ->
   alert (ui (step w ClickDeposit)) = None /\
   isLoading (ui (step w ClickDeposit)) = true).
Proof.
  intros R M. split; [|split].
  - intros E.
    assert (Hs : step w ClickStart = launch startMining w)
      by (unfold step; rewrite M, E; reflexivity).
    rewrite Hs. destruct (launch_frame startMining w) as (_ & -> & _).
    rewrite M. auto.
  - intros E.
    assert (Hs : step w ClickStop = launch stopMining w)
      by (unfold step; rewrite M, E; reflexivity).
    rewrite Hs. destruct (launch_frame stopMining w) as (_ & -> & _).
    rewrite M. auto.
  - intros E V.
    assert (Hs : step w ClickDeposit = launch (deposit (customWallet (ui w))) w)
      by (unfold step; rewrite M, E; reflexivity).
    rewrite Hs.
    destruct (launch_frame (deposit (customWallet (ui w))) w) as (_ & -> & _).
    rewrite M, (runSync_deposit_valid _ _ V). auto.
Qed.

Lemma action_start_clears_alert_witness :
  alert (ui (run minedSession)) = Some ("default"%string, Js.lit "Mining started.") /\
  alert (ui (step (run minedSession) ClickStop)) = None.
Proof.
  split; [vm_compute; reflexivity|].
  refine (proj1 (proj1 (proj2 (action_start_clears_alert (run minedSession)
                                 (reachable_run _) _)) _)).
  - vm_compute; reflexivity.
  - vm_compute; reflexivity.
Defined.

(** X18.  Stopping does not cancel the status queries in flight: when the
    reply to one lands after the stop was acknowledged, the session is
    over and no timer is live, yet the numbers are overwritten with the
    values of that reply. *)
Theorem status_reply_after_stop_is_applied (w : World) (idS idP : positive)
    (rS rP : FetchResult) (d : Data.t) :
  reachable w -> mounted w = true ->
  inFlight w idS stopRequest -> inFlight w idP statusRequest ->
  okResponse rS -> okWithBody rP d ->
  isMining (ui (step (step w (Reply idS rS)) (Reply idP rP))) = false /\
  timers (step (step w (Reply idS rS)) (Reply idP rP)) = [] /\
  progress (ui (step (step w (Reply idS rS)) (Reply idP rP))) = Data.progress d /\
  hashRate (ui (step (step w (Reply idS rS)) (Reply idP rP))) = Data.hashRate d /\
  totalMined (ui (step (step w (Reply idS rS)) (Reply idP rP))) = Data.totalMined d.
Proof.
  intros R M HS HP OS OP.
  assert (Hne : idP <> idS).
  { intros ->. pose proof (inFlight_unique w idS _ _ HS HP) as E. discriminate E. }
  pose proof (reach_step w (Reply idS rS) R) as R1.
  pose proof (eq_trans (reply_mounted w idS rS) M) as M1.
  assert (H1 : isMining (ui (step w (Reply idS rS))) = false).
  { rewrite (reply_ui w idS rS _ M (inFlight_stop w idS R HS)).
    destruct OS as (res & -> & Hok). destruct res as [o b]. simpl in Hok.
    subst o. reflexivity. }
  pose proof (status_reply_state (step w (Reply idS rS)) idP rP d R1 M1
                (inFlight_after_reply w idS rS idP _ _ R HS HP Hne) OP) as H2.
  assert (Hm : isMining (ui (step (step w (Reply idS rS)) (Reply idP rP))) = false).
  { rewrite H2. simpl. exact H1. }
  split; [exact Hm|]. split.
  - pose proof (reachable_TimerInv _ (reach_step _ (Reply idP rP) R1)) as T.
    unfold TimerInv in T. rewrite Hm in T.
    destruct (mounted (step (step w (Reply idS rS)) (Reply idP rP))); apply T.
  - rewrite H2. auto.
Qed.

Lemma status_reply_after_stop_is_applied_witness :
  let w := run (minedSession ++ [Tick 1; ClickStop]) in
  isMining (ui (step (step w (Reply 4 (okReply emptyData))) (Reply 3 (okReply statusData))))
    = false /\
  timers (step (step w (Reply 4 (okReply emptyData))) (Reply 3 (okReply statusData))) = [].
Proof.
  cbv zeta.
  assert (H := status_reply_after_stop_is_applied
                 (run (minedSession ++ [Tick 1; ClickStop])) 4%positive 3%positive
                 (okReply emptyData) (okReply statusData) statusData (reachable_run _)
                 ltac:(vm_compute; reflexivity)
                 ltac:(vm_compute; eexists _, _; split; reflexivity)
                 ltac:(vm_compute; eexists _, _; split; reflexivity)
                 ltac:(eexists; split; reflexivity)
                 ltac:(eexists; repeat split; reflexivity)).
  destruct H as (H1 & H2 & _). split; assumption.
Defined.
